(** * Custom-template-CLI: the project-scaffolding workflow

    A shallow embedding of [src/lib/index.js] (the flag-based entry point)
    and of the interactive entry point (the variant with [qa]), and the
    properties of the workflow [creatApp] that the specification states.

    The program is a script over the host: the file system, child
    processes, the console, the prompts.  It is embedded as a computation
    in a small monad that threads a [world] (the directory the workflow
    writes to, the version-control history of the template directory, and
    the trace of every effect) and ends in one of three ways: normal
    completion, a thrown value (a rejected promise), or [process.exit]. *)

From Stdlib Require Import ZArith Ascii String List Bool Lia.
From stdpp Require Import base option gmap strings.
Import ListNotations.

(** ** JavaScript strings and values *)

Module JsString.

Definition nl : string := String (ascii_of_nat 10) EmptyString.
Definition dquote : string := String (ascii_of_nat 34) EmptyString.

(** [String.prototype.startsWith] *)
Fixpoint startsWith (needle hay : string) : bool :=
  match needle, hay with
  | EmptyString, _ => true
  | String _ _, EmptyString => false
  | String a needle', String b hay' =>
      if Ascii.eqb a b then startsWith needle' hay' else false
  end.

(** [String.prototype.includes] *)
Fixpoint includes (needle hay : string) : bool :=
  match hay with
  | EmptyString => startsWith needle EmptyString
  | String _ rest => startsWith needle hay || includes needle rest
  end.

(** White space and line terminators of the ASCII range. *)
Definition is_white (c : ascii) : bool :=
  let n := nat_of_ascii c in
  (n =? 32)%nat || ((9 <=? n)%nat && (n <=? 13)%nat).

Fixpoint trimStart (s : string) : string :=
  match s with
  | EmptyString => EmptyString
  | String c rest => if is_white c then trimStart rest else s
  end.

Fixpoint trimEnd (s : string) : string :=
  match s with
  | EmptyString => EmptyString
  | String c rest =>
      match trimEnd rest with
      | EmptyString => if is_white c then EmptyString else String c EmptyString
      | kept => String c kept
      end
  end.

(** [String.prototype.trim], for the white space of the ASCII range: the
    white space beyond it (U+00A0, U+FEFF, U+2028 and the like) is left
    in place. *)
Definition trim (s : string) : string := trimEnd (trimStart s).

(** [Array.prototype.join] on an array of strings *)
Fixpoint join (sep : string) (l : list string) : string :=
  match l with
  | [] => EmptyString
  | [x] => x
  | x :: rest => x +:+ sep +:+ join sep rest
  end.

End JsString.

(** The values the workflow passes around: the result of a property
    lookup, a prompt's answer, a caught exception. *)
Inductive jsval : Type :=
| VUndefined
| VString (s : string)
| VNative (text : string)
    (** a built-in function or object; [text] is what its conversion to a
        string yields *)
| VError (message : string)
    (** an [Error] raised by a library call or a failed child process *)
| VObject (fields : list (string * string)).
    (** a plain object literal with string fields *)

#[global] Instance jsval_eq_dec : EqDecision jsval.
Proof. solve_decision. Defined.

(** A value placed in a template literal. *)
Definition to_string (v : jsval) : string :=
  match v with
  | VUndefined => "undefined"
  | VString s => s
  | VNative text => text
  | VError message => "Error: " +:+ message
  | VObject _ => "[object Object]"
  end.

(** A value used as a condition. *)
Definition truthy (v : jsval) : bool :=
  match v with
  | VUndefined => false
  | VString EmptyString => false
  | _ => true
  end.

(** [a === b] on the values above. *)
Definition strict_eq (a b : jsval) : bool := bool_decide (a = b).

(** *** Property lookup on an object literal

    [templeUrls] and [templateUrls] are object literals: their prototype
    is [Object.prototype], so [obj[key]] finds the object's own properties
    first and the inherited ones next, and is [undefined] only when both
    miss.  [Object_prototype] lists the properties of [Object.prototype]
    in Node.js, each with the text its conversion to a string gives. *)
Definition native_function (name : string) : jsval :=
  VNative ("function " +:+ name +:+ "() { [native code] }").

Definition Object_prototype : list (string * jsval) :=
  [ ("constructor", native_function "Object");
    ("__defineGetter__", native_function "__defineGetter__");
    ("__defineSetter__", native_function "__defineSetter__");
    ("hasOwnProperty", native_function "hasOwnProperty");
    ("__lookupGetter__", native_function "__lookupGetter__");
    ("__lookupSetter__", native_function "__lookupSetter__");
    ("isPrototypeOf", native_function "isPrototypeOf");
    ("propertyIsEnumerable", native_function "propertyIsEnumerable");
    ("toString", native_function "toString");
    ("valueOf", native_function "valueOf");
    ("__proto__", VNative "[object Object]");
    ("toLocaleString", native_function "toLocaleString") ].

Fixpoint assoc (key : string) (l : list (string * jsval)) : option jsval :=
  match l with
  | [] => None
  | (k, v) :: rest => if String.eqb key k then Some v else assoc key rest
  end.

Definition get_property (own : gmap string string) (key : string) : jsval :=
  match own !! key with
  | Some v => VString v
  | None => default VUndefined (assoc key Object_prototype)
  end.

(** ** The world the script acts on *)

(** What one entry of the project directory is. *)
Inductive entry_kind : Type := FileEntry | DirEntry.

(** The project directory (the path given on the command line), with its
    top-level entries when it is a directory. *)
Inductive node : Type :=
| Absent
| RegularFile
| Directory (entries : gmap string entry_kind).

(** Every effect of the script, in the order it happens. *)
Inductive event : Type :=
| ConsoleLog (args : list jsval)
| ConsoleError (args : list jsval)
| EnsureDirSync (dir : string)
| EmptyDirSync (dir : string)
| Exec (command : string) (cwd : option string)
| Stat (path : string)
| Spawn (command : string) (args : list string) (cwd : string)
| Prompt (message : string).

Record world : Type := World {
  target : node;
    (** the project directory *)
  history : option (list string);
    (** the version-control metadata of the directory the history reset
        runs in: [None] without a [.git], else the commit messages, oldest
        first *)
  trace : list event
}.

(** How a computation ends. *)
Inductive outcome (A : Type) : Type :=
| Completed (a : A) (w : world)
| Thrown (e : jsval) (w : world)
| Exited (code : Z) (w : world).
Arguments Completed {A} a w.
Arguments Thrown {A} e w.
Arguments Exited {A} code w.

Definition final {A} (o : outcome A) : world :=
  match o with
  | Completed _ w | Thrown _ w | Exited _ w => w
  end.

Definition M (A : Type) : Type := world → outcome A.

#[global] Instance M_ret : MRet M := λ A a w, Completed a w.

#[global] Instance M_bind : MBind M := λ A B k m w,
  match m w with
  | Completed a w' => k a w'
  | Thrown e w' => Thrown e w'
  | Exited code w' => Exited code w'
  end.

Definition throw {A} (e : jsval) : M A := λ w, Thrown e w.

(** [try { body } catch (err) { handler }]: a thrown value is caught,
    [process.exit] is not. *)
Definition try_catch {A} (body : M A) (handler : jsval → M A) : M A := λ w,
  match body w with
  | Thrown e w' => handler e w'
  | o => o
  end.

(** [process.exit(code)]; without an argument the exit status is
    [process.exitCode], which the script never sets, hence 0. *)
Definition process_exit {A} (code : option Z) : M A :=
  λ w, Exited (default 0%Z code) w.

Definition emit (e : event) : M unit :=
  λ w, Completed tt (World (target w) (history w) (trace w ++ [e])).

Definition get_world : M world := λ w, Completed w w.

Definition set_target (n : node) : M unit :=
  λ w, Completed tt (World n (history w) (trace w)).

Definition when (b : bool) (m : M unit) : M unit := if b then m else mret tt.

Fixpoint forEach {A} (l : list A) (f : A → M unit) : M unit :=
  match l with
  | [] => mret tt
  | x :: rest => f x;; forEach rest f
  end.

Definition console_log (args : list jsval) : M unit := emit (ConsoleLog args).
Definition console_error (args : list jsval) : M unit := emit (ConsoleError args).

(** *** fs-extra *)

(** Modelled from the spec: [fs.ensureDirSync] of the fs-extra package,
    which is not under src/.  "Ensure the target directory exists (create
    if absent; this must NOT fail if the directory already exists)".  A
    path that is a regular file cannot be made a directory. *)
Definition ensureDirSync (dir : string) : M unit :=
  emit (EnsureDirSync dir);;
  w ← get_world;
  match target w with
  | Absent => set_target (Directory ∅)
  | Directory _ => mret tt
  | RegularFile => throw (VError ("EEXIST: file already exists, mkdir '" +:+ dir +:+ "'"))
  end.

(** Modelled from the spec: [fs.emptyDirSync] of the fs-extra package,
    which is not under src/.  "Unconditionally empty it of any prior
    contents"; a directory that does not exist is created. *)
Definition emptyDirSync (dir : string) : M unit :=
  emit (EmptyDirSync dir);;
  w ← get_world;
  match target w with
  | Absent | Directory _ => set_target (Directory ∅)
  | RegularFile => throw (VError ("EEXIST: file already exists, mkdir '" +:+ dir +:+ "'"))
  end.

(** ** The host *)

(** The colours of [chalk] the script uses. *)
Inductive colour : Type := Red | Green | Yellow | Blue | Magenta | Cyan.

(** The result object of [validate-npm-package-name]: the two lists are
    properties that may be missing. *)
Record validation : Type := Validation {
  validForNewPackages : bool;
  errors : option (list string);
  warnings : option (list string)
}.

(** What [exec] resolves to. *)
Record exec_output : Type := ExecOutput { stdout : string; stderr : string }.

(** What [fs.stat] resolves to. *)
Record stats : Type := Stats { isDirectory : bool }.

(** The commands the script hands to the shell, one constructor per
    command line; a command string is a list of them chained with [&&]. *)
Inductive shell_step : Type :=
| GitVersion
| GitClone (source : string)
| RemoveGitDir
| GitInit
| GitAddAll
| GitCommit (message : string).

(** Everything the script takes from outside: the packages it requires,
    the processes it starts, the answers it is given. *)
Record host : Type := Host {
  package_name : string;
    (** [packageJson.name] *)
  process_version : string;
  process_cwd : string;
  semver_satisfies : string → string → bool;
  chalk : colour → string → string;
  path_resolve : string → string;
  path_basename : string → string;
  validateProjectName : string → validation;
  run_step : shell_step → option string → jsval + exec_output;
    (** one command line run in a working directory: the error it fails
        with, or what it writes *)
  cloned_directory : string → string;
    (** the directory a clone of the given source creates *)
  cloned_history : string → option (list string);
    (** the history found, after the clone, in the directory the history
        reset runs in *)
  fs_stat : string → jsval + stats;
  spawn_close : string → list string → string → Z;
    (** the code of the [close] event of a spawned process *)
  select_answer : string;
  input_answer : string → string
    (** the answer typed to the question of the given name *)
}.

Module Shell.
Import JsString.

Definition render_step (st : shell_step) : string :=
  match st with
  | GitVersion => "git --version"
  | GitClone source => "git clone " +:+ source
  | RemoveGitDir => "rm -rf .git"
  | GitInit => "git init"
  | GitAddAll => "git add ."
  | GitCommit message => "git commit -m " +:+ dquote +:+ message +:+ dquote
  end.

Definition render (steps : list shell_step) : string :=
  join " && " (map render_step steps).

Definition not_a_repository : jsval :=
  VError "fatal: not a git repository (or any of the parent directories): .git".

Definition no_such_directory : jsval := VError "spawn ENOENT".

(** Modelled from the spec: what [git] and [rm] do is not under src/.
    A clone "into the target directory" creates there the directory of
    the repository, with the history it brings; the history reset is to
    "remove its version-control metadata, reinitialize a fresh
    repository, stage all files, and create one commit".  The location
    given to [git clone] is taken as one word of the command line. *)
Definition step_effect (h : host) (st : shell_step) (w : world) : jsval + world :=
  match st with
  | GitVersion => inr w
  | GitClone source =>
      match target w with
      | Directory entries =>
          inr (World (Directory (<[cloned_directory h source := DirEntry]> entries))
                     (cloned_history h source) (trace w))
      | _ => inl no_such_directory
      end
  | RemoveGitDir => inr (World (target w) None (trace w))
  | GitInit => inr (World (target w) (Some (default [] (history w))) (trace w))
  | GitAddAll =>
      match history w with
      | Some _ => inr w
      | None => inl not_a_repository
      end
  | GitCommit message =>
      match history w with
      | Some log => inr (World (target w) (Some (log ++ [message])) (trace w))
      | None => inl not_a_repository
      end
  end.

Definition run_shell_step (h : host) (st : shell_step) (cwd : option string)
  : M exec_output := λ w,
  match run_step h st cwd with
  | inl e => Thrown e w
  | inr out =>
      match step_effect h st w with
      | inl e => Thrown e w
      | inr w' => Completed out w'
      end
  end.

(** [a && b && ...]: the chain stops at the first command that fails. *)
Fixpoint run_chain (h : host) (steps : list shell_step) (cwd : option string)
  (acc : exec_output) : M exec_output :=
  match steps with
  | [] => mret acc
  | st :: rest =>
      out ← run_shell_step h st cwd;
      run_chain h rest cwd
        (ExecOutput (stdout acc +:+ stdout out) (stderr acc +:+ stderr out))
  end.

End Shell.

(** [util.promisify(child_process.exec)]: resolves with the output when
    the command exits with status 0 and rejects otherwise. *)
Definition exec (h : host) (steps : list shell_step) (cwd : option string)
  : M exec_output :=
  emit (Exec (Shell.render steps) cwd);;
  Shell.run_chain h steps cwd (ExecOutput "" "").

Definition stat (h : host) (path : string) : M stats :=
  emit (Stat path);;
  match fs_stat h path with
  | inl e => throw e
  | inr st => mret st
  end.

(** ** The script *)

Section Script.
Import JsString.
Context (h : host).

(** [checkAppName]: check the app name is valid. *)
Definition checkAppName (appName : string) : M unit :=
  let validationResult := validateProjectName h appName in
  if negb (validForNewPackages validationResult) then
    console_error [VString (chalk h Red
      ("Cannot create a project named " +:+
       chalk h Green (dquote +:+ appName +:+ dquote) +:+
       " because of npm naming restrictions:" +:+ nl))];;
    forEach (default [] (errors validationResult) ++
             default [] (warnings validationResult))
      (λ error, console_error [VString (chalk h Red ("  * " +:+ error))]);;
    console_error [VString (chalk h Red
      (nl +:+ "Please choose a different project name."))];;
    process_exit (Some 1%Z)
  else mret tt.

(** [install]: install dependencies packages.  The parameters [useYarn],
    [usePnp] and [isOnline] are never read and are left out; the promise
    is the computation, rejected when it throws.  Here the process is
    started and closes with an exit status, [spawn_close]; the other
    ways a spawn goes ([spawn] throws, the child cannot be started, a
    signal ends it) are those of [Spawning.install] below. *)
Definition install (root : string) (dependencies : list string) : M unit :=
  let command := "npm" in
  let args := ["install"; "--save"; "--loglevel"; "error"] ++ dependencies in
  emit (Spawn command args ("./" +:+ root));;
  console_log [];;
  console_log [VString (chalk h Green "Install dependencies....")];;
  let code := spawn_close h command args ("./" +:+ root) in
  if negb (code =? 0)%Z then
    throw (VObject [("command", command +:+ " " +:+ join " " args)])
  else mret tt.

(** The command of the history reset.  (One TypeScript revision of the
    flag-based entry point writes [rimraf .git] for its first command.) *)
Definition history_reset : list shell_step :=
  [RemoveGitDir; GitInit; GitAddAll; GitCommit "create front-end app"].

Definition creatApp (name : string) (templateName templateUrl : jsval) : M unit :=
  (* check node version *)
  let unSupportedNodeVersion :=
    negb (semver_satisfies h (process_version h) ">=10") in
  when unSupportedNodeVersion
    (console_log [VString (chalk h Yellow
      ("You are using Node " +:+ process_version h +:+
       " so the project will be bootstrapped with an old unsupported version of tools." +:+
       nl +:+ nl +:+
       "Please update to Node 10 or higher for a better, fully supported experience." +:+
       nl))]);;
  (* first judged to be a valid npm name, then try create the directory *)
  let root := path_resolve h name in
  let appName := path_basename h root in
  checkAppName appName;;
  ensureDirSync name;;
  console_log [];;
  console_log [VString ("Creating a new React app in " +:+ chalk h Green root +:+ ".")];;
  out ← exec h [GitVersion] None;
  when (truthy (VString (stderr out))) (console_error [VString (stderr out)]);;
  if truthy (VString (stdout out)) && includes "git version" (stdout out) then
    console_log [VString (trim (stdout out))];;
    console_log [];;
    console_log [VString (chalk h Blue
      ("now clone the template in " +:+ chalk h Green name +:+ "...."))];;
    emptyDirSync name;;
    console_log [];;
    console_log [VString (chalk h Magenta "Find folder successfully!")];;
    console_log [templateUrl; templateName];;
    (* async exec download and git commit *)
    try_catch
      (exec h [GitClone (to_string templateUrl)] (Some ("./" +:+ name));;
       console_log [];;
       console_log [VString (chalk h Blue "Downloading success!!!")];;
       console_log [];;
       stats ← stat h (process_cwd h +:+ "/" +:+ name +:+ "/" +:+ to_string templateName);
       when (isDirectory stats)
         (exec h history_reset
            (Some ("./" +:+ name +:+ "/" +:+ to_string templateName));; mret tt);;
       console_log [VString (chalk h Blue
         "Delete the origin git and add new git commit first time!!!")];;
       install (name +:+ "/" +:+ to_string templateName) [])
      (λ err, console_error [err])
  else mret tt.

End Script.

(** What [commander] hands over after parsing [process.argv];
    [program.name()] is the name the [Command] was built with,
    [packageJson.name]. *)
Record argv : Type := Argv {
  project_directory : option string;
    (** the positional argument; [projectName] stays [undefined] without it *)
  template_flag : option string
    (** the value of [-t --template], when given *)
}.

(** *** The flag-based entry point, [src/lib/index.js]

    [init] does not await the promise of [creatApp]: the outcome of
    [init] is the outcome of that promise, and what Node does with a
    rejection nobody handles is not part of it. *)
Module FlagCli.

Definition templeUrls : gmap string string :=
  {[ "react-starter" := "https://github.com/webpack/react-starter.git" ]}.

Definition init (h : host) (args : argv) : M unit :=
  let projectName := project_directory args in
  match projectName with
  | None =>
      (* warning and show example how to add projectName follow the CLI *)
      console_error [VString "Please specify the project directory:"];;
      console_log [VString ("  " +:+ chalk h Cyan (package_name h) +:+ " " +:+
                            chalk h Green "<project-directory>")];;
      console_log [];;
      console_log [VString "For example:"];;
      console_log [VString ("  " +:+ chalk h Cyan (package_name h) +:+ " " +:+
                            chalk h Green "Ceridian-project")];;
      console_log [];;
      console_log [VString ("Run " +:+ chalk h Cyan (package_name h +:+ " --help") +:+
                            " to see all options.")];;
      process_exit None
  | Some projectName =>
      let options_template := default "react-starter" (template_flag args) in
      let templeName := VString options_template in
      let templateUrl := get_property templeUrls options_template in
      creatApp h projectName templeName templateUrl
  end.

End FlagCli.

(** *** The interactive entry point *)
Module InteractiveCli.

Definition templateUrls : gmap string string :=
  {[ "react-starter" := "https://github.com/webpack/react-starter.git";
     "react-material-admin-template" :=
       "https://github.com/rafaelhz/react-material-admin-template.git";
     "react-frame-application" :=
       "https://github.com/zwlzwt/react-frame-application.git" ]}.

(** [select] and [input] of the [@inquirer] packages: the question is
    shown and the host gives the answer. *)
Definition select (h : host) (message : string) : M jsval :=
  emit (Prompt message);; mret (VString (select_answer h)).

Definition input (h : host) (message name : string) : M jsval :=
  emit (Prompt message);; mret (VString (input_answer h name)).

Definition qa (h : host) : M (list jsval) :=
  selectName ← select h "Which template you want choice?";
  if strict_eq selectName (VString "custom") then
    cusName ← input h "Please input your own template git name:" "templateName";
    cusUrl ← input h "Please input your own template git url:" "templateUrl";
    mret [selectName; cusName; cusUrl]
  else mret [selectName].

Definition init (h : host) (args : argv) : M unit :=
  let projectName := project_directory args in
  match projectName with
  | None =>
      console_error [VString "Please specify the project directory:"];;
      console_log [VString ("  " +:+ chalk h Cyan (package_name h) +:+ " " +:+
                            chalk h Green "<project-directory>")];;
      console_log [];;
      console_log [VString "For example:"];;
      console_log [VString ("  " +:+ chalk h Cyan (package_name h) +:+ " " +:+
                            chalk h Green "Custom-react-project")];;
      console_log [];;
      console_log [VString ("Run " +:+ chalk h Cyan (package_name h +:+ " --help") +:+
                            " to see all options.")];;
      process_exit None
  | Some projectName =>
      answers ← qa h;
      let selectAnswer := nth 0 answers VUndefined in
      let cusName := nth 1 answers VUndefined in
      let cusUrl := nth 2 answers VUndefined in
      if strict_eq selectAnswer (VString "custom") &&
         (negb (truthy cusName) || negb (truthy cusUrl)) then
        console_log [];;
        console_log [VString (chalk h Cyan "You must input your own template!!!")];;
        console_log [];;
        process_exit None
      else if strict_eq selectAnswer (VString "custom") then
        let templateName := cusName in
        let templateUrl := cusUrl in
        creatApp h projectName templateName templateUrl
      else
        let templateName := selectAnswer in
        let templateUrl := get_property templateUrls (to_string selectAnswer) in
        creatApp h projectName templateName templateUrl
  end.

End InteractiveCli.

(** ** Observations on a run *)

Module Observe.

Definition is_spawn (e : event) : bool :=
  match e with Spawn _ _ _ => true | _ => false end.

Definition is_console (e : event) : bool :=
  match e with ConsoleLog _ | ConsoleError _ => true | _ => false end.

Definition is_prompt (e : event) : bool :=
  match e with Prompt _ => true | _ => false end.

Definition is_directory_write (e : event) : bool :=
  match e with EnsureDirSync _ | EmptyDirSync _ => true | _ => false end.

(** The dependency installer was started. *)
Definition installer_invoked (tr : list event) : bool := existsb is_spawn tr.

(** A command was run in a working directory: the clone and the history
    reset are, the version probe is not. *)
Definition is_work (e : event) : bool :=
  match e with
  | Exec _ (Some _) => true
  | _ => false
  end.

Definition work_attempted (tr : list event) : bool := existsb is_work tr.

(** Nothing but console output happened. *)
Definition console_only (tr : list event) : bool := forallb is_console tr.

(** The promise resolved: nothing thrown, no [process.exit]. *)
Definition resolved {A} (o : outcome A) : bool :=
  match o with Completed _ _ => true | _ => false end.

(** The value [e] was caught and logged: the promise resolved, the last
    thing done was to print [e] on the error output, and the installer
    was not started. *)
Definition caught {A} (e : jsval) (o : outcome A) : Prop :=
  resolved o = true ∧
  last (trace (final o)) = Some (ConsoleError [e]) ∧
  installer_invoked (trace (final o)) = false.

End Observe.

(** *** The stages of [creatApp], as the host decides them *)

Section Stages.
Import JsString.
Context (h : host).

Definition name_valid (name : string) : bool :=
  validForNewPackages
    (validateProjectName h (path_basename h (path_resolve h name))).

(** What [ensureDirSync] leaves. *)
Definition ensured (n : node) : node :=
  match n with
  | Absent => Directory ∅
  | _ => n
  end.

Definition node_warning : list event :=
  if negb (semver_satisfies h (process_version h) ">=10") then
    [ConsoleLog [VString (chalk h Yellow
      ("You are using Node " +:+ process_version h +:+
       " so the project will be bootstrapped with an old unsupported version of tools." +:+
       nl +:+ nl +:+
       "Please update to Node 10 or higher for a better, fully supported experience." +:+
       nl))]]
  else [].

(** The lines [checkAppName] prints for a list of violations. *)
Definition violation_report (appName : string) (violations : list string)
  : list event :=
  [ConsoleError [VString (chalk h Red
     ("Cannot create a project named " +:+
      chalk h Green (dquote +:+ appName +:+ dquote) +:+
      " because of npm naming restrictions:" +:+ nl))]] ++
  map (λ error, ConsoleError [VString (chalk h Red ("  * " +:+ error))])
      violations ++
  [ConsoleError [VString (chalk h Red
     (nl +:+ "Please choose a different project name."))]].

(** The lines [init] prints when no project directory is given; the two
    entry points differ in the example only. *)
Definition usage_events (example : string) : list event :=
  [ ConsoleError [VString "Please specify the project directory:"];
    ConsoleLog [VString ("  " +:+ chalk h Cyan (package_name h) +:+ " " +:+
                         chalk h Green "<project-directory>")];
    ConsoleLog [];
    ConsoleLog [VString "For example:"];
    ConsoleLog [VString ("  " +:+ chalk h Cyan (package_name h) +:+ " " +:+
                         chalk h Green example)];
    ConsoleLog [];
    ConsoleLog [VString ("Run " +:+ chalk h Cyan (package_name h +:+ " --help") +:+
                         " to see all options.")] ].

(** The three questions of the custom template, and the reminder printed
    when an answer is blank. *)
Definition custom_questions : list event :=
  [ Prompt "Which template you want choice?";
    Prompt "Please input your own template git name:";
    Prompt "Please input your own template git url:" ].

Definition custom_reminder : list event :=
  [ ConsoleLog [];
    ConsoleLog [VString (chalk h Cyan "You must input your own template!!!")];
    ConsoleLog [] ].

(** From the directory creation up to the version probe. *)
Definition probe_events (name : string) : list event :=
  [ EnsureDirSync name;
    ConsoleLog [];
    ConsoleLog [VString ("Creating a new React app in " +:+
                         chalk h Green (path_resolve h name) +:+ ".")];
    Exec "git --version" None ].

Definition stderr_warning (out : exec_output) : list event :=
  if truthy (VString (stderr out)) then [ConsoleError [VString (stderr out)]]
  else [].

(** From the success marker up to the [try] statement. *)
Definition clone_preamble (name : string) (templateName templateUrl : jsval)
  (out : exec_output) : list event :=
  [ ConsoleLog [VString (trim (stdout out))];
    ConsoleLog [];
    ConsoleLog [VString (chalk h Blue
      ("now clone the template in " +:+ chalk h Green name +:+ "...."))];
    EmptyDirSync name;
    ConsoleLog [];
    ConsoleLog [VString (chalk h Magenta "Find folder successfully!")];
    ConsoleLog [templateUrl; templateName] ].

(** The [try] statement of [creatApp], on its own. *)
Definition try_statement (name : string) (templateName templateUrl : jsval)
  : M unit :=
  try_catch
    (exec h [GitClone (to_string templateUrl)] (Some ("./" +:+ name));;
     console_log [];;
     console_log [VString (chalk h Blue "Downloading success!!!")];;
     console_log [];;
     stats ← stat h (process_cwd h +:+ "/" +:+ name +:+ "/" +:+ to_string templateName);
     when (isDirectory stats)
       (exec h history_reset
          (Some ("./" +:+ name +:+ "/" +:+ to_string templateName));; mret tt);;
     console_log [VString (chalk h Blue
       "Delete the origin git and add new git commit first time!!!")];;
     install h (name +:+ "/" +:+ to_string templateName) [])
    (λ err, console_error [err]).

(** The error of the first command of a chain that the host fails. *)
Fixpoint first_failure (steps : list shell_step) (cwd : option string)
  : option jsval :=
  match steps with
  | [] => None
  | st :: rest =>
      match run_step h st cwd with
      | inl e => Some e
      | inr _ => first_failure rest cwd
      end
  end.

Definition clone_directory (name : string) : option string :=
  Some ("./" +:+ name).

Definition template_directory (name : string) (templateName : jsval) : string :=
  "./" +:+ name +:+ "/" +:+ to_string templateName.

Definition template_path (name : string) (templateName : jsval) : string :=
  process_cwd h +:+ "/" +:+ name +:+ "/" +:+ to_string templateName.

(** The value thrown by the clone, the stat or the history reset, in that
    order, if one of them throws. *)
Definition try_failure (name : string) (templateName templateUrl : jsval)
  : option jsval :=
  match run_step h (GitClone (to_string templateUrl)) (clone_directory name) with
  | inl e => Some e
  | inr _ =>
      match fs_stat h (template_path name templateName) with
      | inl e => Some e
      | inr st =>
          if isDirectory st then
            first_failure history_reset
              (Some (template_directory name templateName))
          else None
      end
  end.

(** The clone and what follows it up to the stat. *)
Definition cloned_events (name : string) (templateName templateUrl : jsval)
  : list event :=
  [ Exec ("git clone " +:+ to_string templateUrl) (clone_directory name);
    ConsoleLog [];
    ConsoleLog [VString (chalk h Blue "Downloading success!!!")];
    ConsoleLog [];
    Stat (template_path name templateName) ].

Definition reset_event (name : string) (templateName : jsval) : event :=
  Exec (Shell.render history_reset) (Some (template_directory name templateName)).

Definition install_args : list string :=
  ["install"; "--save"; "--loglevel"; "error"].

Definition install_events (name : string) (templateName : jsval) : list event :=
  [ ConsoleLog [VString (chalk h Blue
      "Delete the origin git and add new git commit first time!!!")];
    Spawn "npm" install_args (template_directory name templateName);
    ConsoleLog [];
    ConsoleLog [VString (chalk h Green "Install dependencies....")] ].

(** What the installer's promise is rejected with. *)
Definition install_rejection (dependencies : list string) : jsval :=
  VObject [("command", "npm " +:+ join " " (install_args ++ dependencies))].

(** The line the [catch] clause prints when the installer fails. *)
Definition install_report (name : string) (templateName : jsval) : list event :=
  if (spawn_close h "npm" install_args (template_directory name templateName) =? 0)%Z
  then []
  else [ConsoleError [install_rejection []]].

(** The version probe completed and its output carries the marker. *)
Definition probe_passes : bool :=
  match run_step h GitVersion None with
  | inl _ => false
  | inr out => includes "git version" (stdout out)
  end.

Definition is_file (n : node) : bool :=
  match n with RegularFile => true | _ => false end.

(** The run gets as far as the [try] statement: the name is accepted, the
    project directory can be made, the probe passes. *)
Definition reaches_try (name : string) (n : node) : bool :=
  name_valid name && negb (is_file n) && probe_passes.

(** The trace of the [try] statement. *)
Definition try_events (name : string) (templateName templateUrl : jsval)
  : list event :=
  match run_step h (GitClone (to_string templateUrl)) (clone_directory name) with
  | inl e =>
      [ Exec ("git clone " +:+ to_string templateUrl) (clone_directory name);
        ConsoleError [e] ]
  | inr _ =>
      cloned_events name templateName templateUrl ++
      match fs_stat h (template_path name templateName) with
      | inl e => [ConsoleError [e]]
      | inr st =>
          if isDirectory st then
            reset_event name templateName ::
            match first_failure history_reset
                    (Some (template_directory name templateName)) with
            | Some e => [ConsoleError [e]]
            | None =>
                install_events name templateName ++
                install_report name templateName
            end
          else
            install_events name templateName ++ install_report name templateName
      end
  end.

(** The project directory once the clone has succeeded. *)
Definition cloned (templateUrl : jsval) (entries : gmap string entry_kind) : node :=
  Directory (<[cloned_directory h (to_string templateUrl) := DirEntry]> entries).

(** The entries of the project directory after the clone step. *)
Definition after_clone (name : string) (templateUrl : jsval)
  (entries : gmap string entry_kind) : gmap string entry_kind :=
  match run_step h (GitClone (to_string templateUrl)) (clone_directory name) with
  | inl _ => entries
  | inr _ => <[cloned_directory h (to_string templateUrl) := DirEntry]> entries
  end.

End Stages.

(** ** A host to run the script on *)

Module Sample.
Import JsString.

(** The last segment of a path. *)
Fixpoint basename_from (seg s : string) : string :=
  match s with
  | EmptyString => seg
  | String c rest =>
      if Ascii.eqb c "/"%char then basename_from EmptyString rest
      else basename_from (seg +:+ String c EmptyString) rest
  end.

(** The name of a repository: the last segment of its location, without
    a final [.git]. *)
Fixpoint strip_dot_git (s : string) : string :=
  match s with
  | EmptyString => EmptyString
  | String c rest =>
      if String.eqb s ".git" then EmptyString else String c (strip_dot_git rest)
  end.

Definition humanish (source : string) : string :=
  strip_dot_git (basename_from EmptyString source).

Definition url_friendly (c : ascii) : bool :=
  let n := nat_of_ascii c in
  ((97 <=? n)%nat && (n <=? 122)%nat) || ((48 <=? n)%nat && (n <=? 57)%nat) ||
  (n =? 45)%nat.

Fixpoint all_chars (p : ascii → bool) (s : string) : bool :=
  match s with
  | EmptyString => true
  | String c rest => p c && all_chars p rest
  end.

(** A validator with the shape of [validate-npm-package-name]: a list is
    present exactly when it is not empty. *)
Definition validate (s : string) : validation :=
  match s with
  | EmptyString =>
      Validation false (Some ["name length must be greater than zero"]) None
  | _ =>
      if all_chars url_friendly s then Validation true None None
      else if all_chars (λ c, url_friendly c || is_white c) (trim s) then
        Validation false
          (Some ["name can only contain URL-friendly characters"]) None
      else
        Validation false
          (Some ["name can only contain URL-friendly characters"])
          (Some ["name can no longer contain capital letters"])
  end.

Definition react_starter : string :=
  "https://github.com/webpack/react-starter.git".

Definition git_2_39 : exec_output := ExecOutput ("git version 2.39.2" +:+ nl) "".

(** Every command succeeds silently, but for the version probe, which
    answers [probe]. *)
Definition steps_ok (probe : jsval + exec_output) (st : shell_step)
  (cwd : option string) : jsval + exec_output :=
  match st with
  | GitVersion => probe
  | _ => inr (ExecOutput "" "")
  end.

(** The given command fails with [e]; the others are as in [steps]. *)
Definition failing (bad : shell_step → bool) (e : jsval)
  (steps : shell_step → option string → jsval + exec_output)
  (st : shell_step) (cwd : option string) : jsval + exec_output :=
  if bad st then inl e else steps st cwd.

Definition is_clone (st : shell_step) : bool :=
  match st with GitClone _ => true | _ => false end.

Definition is_commit (st : shell_step) : bool :=
  match st with GitCommit _ => true | _ => false end.

Definition machine
  (steps : shell_step → option string → jsval + exec_output)
  (stat_result : jsval + stats) (close_code : Z)
  (choice : string) (typed : string → string) : host :=
  {| package_name := "custom-template-cli";
     process_version := "v18.16.0";
     process_cwd := "/home/dev";
     semver_satisfies := λ _ _, true;
     chalk := λ _ s, s;
     path_resolve := λ p, "/home/dev/" +:+ p;
     path_basename := basename_from EmptyString;
     validateProjectName := validate;
     run_step := steps;
     cloned_directory := humanish;
     cloned_history := λ _, Some ["initial commit"; "add webpack"];
     fs_stat := λ _, stat_result;
     spawn_close := λ _ _ _, close_code;
     select_answer := choice;
     input_answer := typed |}.

Definition no_answer (question : string) : string := EmptyString.

(** Everything works. *)
Definition happy : host :=
  machine (steps_ok (inr git_2_39)) (inr (Stats true)) 0 "react-starter" no_answer.


(** The probe answers with the marker and complains all the same. *)
Definition complaining : host :=
  machine (steps_ok (inr (ExecOutput "git version 2.39.2" "warning: old config")))
    (inr (Stats true)) 0 "react-starter" no_answer.

(** The clone fails. *)
Definition clone_refused : host :=
  machine (failing is_clone (VError "fatal: repository not found")
             (steps_ok (inr git_2_39)))
    (inr (Stats true)) 0 "react-starter" no_answer.

(** The cloned repository has no directory of the template's name. *)
Definition layout_mismatch : host :=
  machine (steps_ok (inr git_2_39)) (inl (VError "ENOENT: no such file or directory"))
    0 "react-starter" no_answer.

(** The commit of the history reset fails. *)
Definition commit_refused : host :=
  machine (failing is_commit (VError "Author identity unknown")
             (steps_ok (inr git_2_39)))
    (inr (Stats true)) 0 "react-starter" no_answer.

(** The installer exits with status 1. *)
Definition install_fails : host :=
  machine (steps_ok (inr git_2_39)) (inr (Stats true)) 1 "react-starter" no_answer.

(** The user picks the custom template and types the given answers. *)
Definition typed (name url question : string) : string :=
  if String.eqb question "templateName" then name
  else if String.eqb question "templateUrl" then url
  else EmptyString.

Definition custom (name url : string) : host :=
  machine (steps_ok (inr git_2_39)) (inr (Stats true)) 0 "custom" (typed name url).

(** One file in the project directory before the run. *)
Definition seeded : node := Directory {[ "sentinel.txt" := FileEntry ]}.

End Sample.

(** ** The rest of the script *)

(** *** [__awaiter]

    The helper that drives the generator of an [async] function.  A
    promise is taken by the state it ends in; the promise [__awaiter]
    returns is the state the driving ends in.  A generator is taken with
    the finitely many [yield]s of a driving that comes to an end; one
    that yields for ever is not among them. *)
Module Awaiter.

Inductive promise_state : Type :=
| Pending
| Fulfilled (value : jsval)
| Rejected (reason : jsval).

(** What a generator hands out: a promise (an instance of [P]), or any
    other value. *)
Inductive yielded : Type :=
| Plain (v : jsval)
| Promise (state : promise_state).

(** What [generator.next(v)] and [generator.throw(e)] give: the iterator
    result of a [yield], with the two ways to resume the generator
    suspended there; the iterator result of the [return]; or the
    exception the call ends with. *)
Inductive iterator_result : Type :=
| Yield (value : yielded) (next : jsval → iterator_result)
    (throw : jsval → iterator_result)
| Return (value : yielded)
| Raise (e : jsval).

(** A generator that has not started. *)
Record generator : Type := Generator {
  gen_next : jsval → iterator_result;
  gen_throw : jsval → iterator_result
}.

(** [adopt]: a promise is taken as it is, another value is wrapped in a
    promise resolved with it. *)
Definition adopt (value : yielded) : promise_state :=
  match value with
  | Promise state => state
  | Plain v => Fulfilled v
  end.

(** [resolve] of the promise returned: a promise is followed. *)
Definition resolve (value : yielded) : promise_state :=
  match value with
  | Promise state => state
  | Plain v => Fulfilled v
  end.

(** [step], with [fulfilled] and [rejected] as the two callbacks of
    [then]; an exception of [next] or [throw] is caught and rejects. *)
Fixpoint step (result : iterator_result) : promise_state :=
  match result with
  | Return value => resolve value
  | Raise e => Rejected e
  | Yield value next throw =>
      match adopt value with
      | Fulfilled v => step (next v)
      | Rejected reason => step (throw reason)
      | Pending => Pending
      end
  end.

Definition __awaiter (thisArg : jsval) (_arguments : option (list jsval))
  (generator : jsval → list jsval → generator) : promise_state :=
  step (gen_next (generator thisArg (default [] _arguments)) VUndefined).

(** The values the driving adopts, in order. *)
Fixpoint awaited (result : iterator_result) : list yielded :=
  match result with
  | Yield value next throw =>
      value ::
      match adopt value with
      | Fulfilled v => awaited (next v)
      | Rejected reason => awaited (throw reason)
      | Pending => []
      end
  | _ => []
  end.

(** The value the generator returns, when the driving gets there. *)
Fixpoint returned (result : iterator_result) : option yielded :=
  match result with
  | Return value => Some value
  | Raise _ => None
  | Yield value next throw =>
      match adopt value with
      | Fulfilled v => returned (next v)
      | Rejected reason => returned (throw reason)
      | Pending => None
      end
  end.

(** No [yield] of the generator stands in a [try] block: what is thrown
    into the generator at a [yield] comes out of it as it is. *)
Inductive uncaught : iterator_result → Prop :=
| uncaught_return value : uncaught (Return value)
| uncaught_raise e : uncaught (Raise e)
| uncaught_yield value next throw :
    (∀ e, throw e = Raise e) →
    (∀ v, uncaught (next v)) →
    uncaught (Yield value next throw).

End Awaiter.

(** *** The menu of the interactive entry point *)
Module Menu.

Record choice : Type := Choice {
  name : string;
  value : string;
  description : option string
}.

(** [templateSelectQuestion.choices] *)
Definition choices : list choice :=
  [ Choice "react-starter" "react-starter"
      (Some "webpack official template for react");
    Choice "react-material-admin-template" "react-material-admin-template"
      (Some "This is a simple responsive admin template using React and Material-UI components.");
    Choice "react-frame-application" "react-frame-application"
      (Some "A React + Redux application without server render.");
    Choice "custom template" "custom" None ].

End Menu.

(** *** The installer and its process *)
Module Spawning.
Import JsString.

(** How a [spawn] goes. *)
Inductive spawned : Type :=
| SpawnThrows (e : jsval)
    (** [spawn] itself throws, as it does when the working directory is
        not a directory *)
| SpawnError (e : jsval)
    (** the child emits ['error']: the command cannot be started *)
| Closes (code : option Z).
    (** the child emits ['close'] with its exit status, or with [null]
        when a signal ended it *)

(** [install], with the process as [child] gives it.  [spawn] is called
    in the executor of the promise, so what it throws rejects the
    promise, before anything is printed.  The child has a listener for
    ['close'] only: an ['error'] it emits is thrown out of the event
    loop, and Node ends the process with status 1.  In the listener,
    [code !== 0] holds of [null] too. *)
Definition install (h : host)
  (child : string → list string → string → spawned)
  (root : string) (dependencies : list string) : M unit :=
  let command := "npm" in
  let args := ["install"; "--save"; "--loglevel"; "error"] ++ dependencies in
  emit (Spawn command args ("./" +:+ root));;
  match child command args ("./" +:+ root) with
  | SpawnThrows e => throw e
  | SpawnError e =>
      console_log [];;
      console_log [VString (chalk h Green "Install dependencies....")];;
      process_exit (Some 1%Z)
  | Closes code =>
      console_log [];;
      console_log [VString (chalk h Green "Install dependencies....")];;
      match code with
      | Some 0%Z => mret tt
      | _ => throw (VObject [("command", command +:+ " " +:+ join " " args)])
      end
  end.

(** The process of a host on which every spawn starts and closes with
    the exit status [spawn_close]. *)
Definition closing (h : host) (command : string) (args : list string)
  (cwd : string) : spawned :=
  Closes (Some (spawn_close h command args cwd)).

End Spawning.

(** *** Where the script works *)

(** The same host, with a version of Node that [semver] accepts. *)
Definition supported (h : host) : host :=
  {| package_name := package_name h;
     process_version := process_version h;
     process_cwd := process_cwd h;
     semver_satisfies := λ _ _, true;
     chalk := chalk h;
     path_resolve := path_resolve h;
     path_basename := path_basename h;
     validateProjectName := validateProjectName h;
     run_step := run_step h;
     cloned_directory := cloned_directory h;
     cloned_history := cloned_history h;
     fs_stat := fs_stat h;
     spawn_close := spawn_close h;
     select_answer := select_answer h;
     input_answer := input_answer h |}.

(** The paths of the event are the ones the script builds from the
    project name and the template name: the directory made and emptied
    is [name] as given, the only command run without a working directory
    is the version probe, the others run in [./name] or in
    [./name/templateName], where npm runs too, and the path looked up is
    [process.cwd()/name/templateName].  These are the strings handed
    over, not where they lead: a template name such as [..] or an
    absolute project name leads out of the project directory. *)
Definition built_from_names (h : host) (name : string) (templateName : jsval)
  (e : event) : Prop :=
  match e with
  | EnsureDirSync dir | EmptyDirSync dir => dir = name
  | Exec command None => command = "git --version"
  | Exec _ (Some cwd) =>
      cwd = "./" +:+ name ∨ cwd = "./" +:+ name +:+ "/" +:+ to_string templateName
  | Spawn _ _ cwd => cwd = "./" +:+ name +:+ "/" +:+ to_string templateName
  | Stat path =>
      path = process_cwd h +:+ "/" +:+ name +:+ "/" +:+ to_string templateName
  | ConsoleLog _ | ConsoleError _ => True
  | Prompt _ => False
  end.

(** * Properties *)

(** ** Strings *)

Lemma append_empty_l (s : string) : "" +:+ s = s.
Proof. reflexivity. Qed.

Lemma append_cons (c : ascii) (s t : string) :
  String c s +:+ t = String c (s +:+ t).
Proof. reflexivity. Qed.

Lemma startsWith_spec (needle hay : string) :
  JsString.startsWith needle hay = true ↔ ∃ post, hay = needle +:+ post.
Proof.
  revert hay. induction needle as [|a needle IH]; intros hay; cbn.
  - split; [intros _; by exists hay | done].
  - destruct hay as [|b hay].
    + split; [done | intros [post Hpost]; discriminate Hpost].
    + destruct (Ascii.eqb_spec a b) as [->|Hab].
      * rewrite IH. split; intros [post Hpost]; exists post.
        -- by rewrite append_cons, Hpost.
        -- rewrite append_cons in Hpost. by injection Hpost.
      * split; [done | intros [post Hpost]].
        rewrite append_cons in Hpost. injection Hpost as Hb _. by symmetry in Hb.
Qed.

(** [includes] finds the needle exactly when the text is some prefix, the
    needle, and some suffix. *)
Lemma includes_spec (needle hay : string) :
  JsString.includes needle hay = true ↔
  ∃ pre post, hay = pre +:+ needle +:+ post.
Proof.
  induction hay as [|c hay IH]; cbn [JsString.includes].
  - rewrite startsWith_spec. split.
    + intros [post Hpost]. by exists EmptyString, post.
    + intros [pre [post Hpost]]. destruct pre; [by exists post | discriminate Hpost].
  - rewrite orb_true_iff, startsWith_spec, IH. split.
    + intros [[post Hpost] | [pre [post Hpost]]].
      * by exists EmptyString, post.
      * exists (String c pre), post. by rewrite append_cons, Hpost.
    + intros [pre [post Hpost]]. destruct pre as [|x pre].
      * left. by exists post.
      * right. exists pre, post. rewrite append_cons in Hpost. by injection Hpost.
Qed.

Lemma includes_marker_truthy (s : string) :
  JsString.includes "git version" s = true → truthy (VString s) = true.
Proof. destruct s; [discriminate | done]. Qed.

(** ** The command lines *)

Lemma render_probe : Shell.render [GitVersion] = "git --version".
Proof. reflexivity. Qed.

Lemma render_clone (source : string) :
  Shell.render [GitClone source] = "git clone " +:+ source.
Proof. reflexivity. Qed.

Lemma render_history_reset :
  Shell.render history_reset =
  "rm -rf .git && git init && git add . && git commit -m " +:+
  JsString.dquote +:+ "create front-end app" +:+ JsString.dquote.
Proof. reflexivity. Qed.

(** A chain that the host lets through leaves one commit, whatever the
    history was; a chain that fails, fails with the error of its first
    failing command. *)
Lemma history_reset_chain (h : host) (cwd : option string) (w : world) :
  match first_failure h history_reset cwd with
  | None =>
      ∃ out, exec h history_reset cwd w =
             Completed out
               (World (target w) (Some ["create front-end app"])
                  (trace w ++ [Exec (Shell.render history_reset) cwd]))
  | Some e =>
      ∃ r', exec h history_reset cwd w =
            Thrown e (World (target w) r'
                        (trace w ++ [Exec (Shell.render history_reset) cwd]))
  end.
Proof.
  destruct w as [n r tr].
  unfold first_failure, history_reset, exec, Shell.run_chain, Shell.run_shell_step,
    emit, mbind, M_bind, mret, M_ret.
  cbn [target history trace].
  destruct (run_step h RemoveGitDir cwd) as [e1|o1]; [by eexists|].
  cbn [Shell.step_effect target history trace].
  destruct (run_step h GitInit cwd) as [e2|o2]; [by eexists|].
  cbn [Shell.step_effect target history trace default].
  destruct (run_step h GitAddAll cwd) as [e3|o3]; [by eexists|].
  cbn [Shell.step_effect target history trace].
  destruct (run_step h (GitCommit _) cwd) as [e4|o4]; [by eexists|].
  cbn [Shell.step_effect target history trace app]. by eexists.
Qed.

(** ** The monad *)

Lemma bind_ret_l {A B} (a : A) (k : A → M B) (w : world) :
  (mret a ≫= k) w = k a w.
Proof. reflexivity. Qed.

Lemma bind_ret_r {A} (m : M A) (w : world) : (m ≫= mret) w = m w.
Proof. unfold mbind, M_bind, mret, M_ret. by destruct (m w). Qed.

Lemma bind_assoc {A B C} (m : M A) (k : A → M B) (k' : B → M C) (w : world) :
  ((m ≫= k) ≫= k') w = (m ≫= λ a, k a ≫= k') w.
Proof. unfold mbind, M_bind. by destruct (m w). Qed.

(** [process.exit] goes through a [catch] clause. *)
Lemma try_catch_exit {A} (code : option Z) (handler : jsval → M A) (w : world) :
  try_catch (process_exit code) handler w = Exited (default 0%Z code) w.
Proof. reflexivity. Qed.

Lemma try_catch_throw {A} (e : jsval) (handler : jsval → M A) (w : world) :
  try_catch (throw e) handler w = handler e w.
Proof. reflexivity. Qed.

(** ** Running the script symbolically *)

Ltac script_unfold :=
  unfold creatApp, try_statement, checkAppName, install, ensureDirSync,
    emptyDirSync, exec, stat, when, console_log, console_error, emit,
    get_world, set_target, throw, try_catch, process_exit,
    Shell.run_shell_step, mbind, M_bind, mret, M_ret in *.

Ltac script_simpl :=
  repeat progress
    (script_unfold; cbn -[JsString.includes JsString.trim app truthy]);
  rewrite ?append_empty_l;
  repeat rewrite <- app_assoc.

Lemma forEach_console_error (f : string → list jsval) (l : list string) (w : world) :
  forEach l (λ x, console_error (f x)) w =
  Completed tt (World (target w) (history w)
                  (trace w ++ map (λ x, ConsoleError (f x)) l)).
Proof.
  revert w. induction l as [|x l IH]; intros [n r tr]; cbn.
  - by rewrite app_nil_r.
  - unfold mbind, M_bind, console_error, emit. cbn. rewrite IH. cbn.
    by rewrite <- app_assoc.
Qed.

Section CheckAppName.
Context (h : host).

Lemma checkAppName_valid (appName : string) (w : world) :
  validForNewPackages (validateProjectName h appName) = true →
  checkAppName h appName w = Completed tt w.
Proof. intros Hv. unfold checkAppName. by rewrite Hv. Qed.

Lemma checkAppName_invalid (appName : string) (w : world) :
  validForNewPackages (validateProjectName h appName) = false →
  checkAppName h appName w =
  Exited 1 (World (target w) (history w)
    (trace w ++ violation_report h appName
       (default [] (errors (validateProjectName h appName)) ++
        default [] (warnings (validateProjectName h appName))))).
Proof.
  intros Hv. unfold checkAppName, violation_report. rewrite Hv.
  destruct w as [n r tr]. cbn [negb].
  unfold mbind, M_bind at 1. unfold console_error at 1, emit. cbn [target history trace].
  unfold mbind, M_bind at 1. rewrite forEach_console_error.
  cbn. by rewrite <- !app_assoc.
Qed.

End CheckAppName.

(** ** The stages of [creatApp] *)

Section CreatApp.
Context (h : host) (name : string) (templateName templateUrl : jsval).

Lemma creatApp_invalid (w : world) :
  name_valid h name = false →
  creatApp h name templateName templateUrl w =
  Exited 1 (World (target w) (history w)
    (trace w ++ node_warning h ++
     violation_report h (path_basename h (path_resolve h name))
       (default [] (errors (validateProjectName h (path_basename h (path_resolve h name)))) ++
        default [] (warnings (validateProjectName h (path_basename h (path_resolve h name))))))).
Proof.
  intros Hv. destruct w as [n r tr]. unfold name_valid in Hv.
  unfold creatApp, node_warning.
  destruct (semver_satisfies _ _ _); cbn [negb when];
    unfold mbind, M_bind, mret, M_ret, console_log, emit; cbn [target history trace];
    rewrite (checkAppName_invalid h _ _ Hv); cbn [target history trace];
    by rewrite <- ?app_assoc.
Qed.

Lemma creatApp_not_directory (w : world) :
  name_valid h name = true →
  target w = RegularFile →
  ∃ e, creatApp h name templateName templateUrl w =
       Thrown e (World RegularFile (history w)
                   (trace w ++ node_warning h ++ [EnsureDirSync name])).
Proof.
  intros Hv Hn. destruct w as [n r tr]. cbn in Hn. subst n.
  unfold name_valid, node_warning in *. eexists.
  script_unfold. rewrite Hv.
  destruct (semver_satisfies _ _ _); script_simpl; reflexivity.
Qed.

Lemma creatApp_probe_fails (w : world) (e : jsval) :
  name_valid h name = true →
  target w ≠ RegularFile →
  run_step h GitVersion None = inl e →
  creatApp h name templateName templateUrl w =
  Thrown e (World (ensured (target w)) (history w)
              (trace w ++ node_warning h ++ probe_events h name)).
Proof.
  intros Hv Hn Hp. destruct w as [n r tr].
  unfold name_valid, node_warning, probe_events in *.
  script_unfold. rewrite Hv.
  destruct (semver_satisfies _ _ _); destruct n; try (exfalso; by apply Hn);
    script_simpl; rewrite Hp; script_simpl; reflexivity.
Qed.

Lemma creatApp_no_marker (w : world) (out : exec_output) :
  name_valid h name = true →
  target w ≠ RegularFile →
  run_step h GitVersion None = inr out →
  JsString.includes "git version" (stdout out) = false →
  creatApp h name templateName templateUrl w =
  Completed tt (World (ensured (target w)) (history w)
    (trace w ++ node_warning h ++ probe_events h name ++ stderr_warning out)).
Proof.
  intros Hv Hn Hp Hm. destruct w as [n r tr].
  unfold name_valid, node_warning, probe_events, stderr_warning in *.
  script_unfold. rewrite Hv.
  destruct (semver_satisfies _ _ _); destruct n; try (exfalso; by apply Hn);
    script_simpl; rewrite Hp; script_simpl;
    rewrite Hm, andb_false_r; destruct (truthy (VString (stderr out)));
    script_simpl; reflexivity.
Qed.

Lemma creatApp_marker (w : world) (out : exec_output) :
  name_valid h name = true →
  target w ≠ RegularFile →
  run_step h GitVersion None = inr out →
  JsString.includes "git version" (stdout out) = true →
  creatApp h name templateName templateUrl w =
  try_statement h name templateName templateUrl
    (World (Directory ∅) (history w)
       (trace w ++ node_warning h ++ probe_events h name ++ stderr_warning out ++
        clone_preamble h name templateName templateUrl out)).
Proof.
  intros Hv Hn Hp Hm. destruct w as [n r tr].
  unfold name_valid, node_warning, probe_events, stderr_warning, clone_preamble in *.
  pose proof (includes_marker_truthy _ Hm) as Ht.
  script_unfold. rewrite Hv.
  destruct (semver_satisfies _ _ _); destruct n; try (exfalso; by apply Hn);
    script_simpl; rewrite Hp; script_simpl;
    rewrite Hm, Ht; destruct (truthy (VString (stderr out)));
    script_simpl; reflexivity.
Qed.

End CreatApp.

(** ** The [try] statement: clone, stat, history reset, install *)

Section TryStatement.
Context (h : host) (name : string) (templateName templateUrl : jsval).
Context (entries : gmap string entry_kind) (r : option (list string)).
Context (tr : list event).

Lemma try_clone_fails (e : jsval) :
  run_step h (GitClone (to_string templateUrl)) (clone_directory name) = inl e →
  try_statement h name templateName templateUrl (World (Directory entries) r tr) =
  Completed tt (World (Directory entries) r
    (tr ++ [Exec ("git clone " +:+ to_string templateUrl) (clone_directory name);
            ConsoleError [e]])).
Proof.
  intros Hc. unfold clone_directory in *.
  script_simpl. rewrite Hc. script_simpl. reflexivity.
Qed.

Lemma try_stat_fails (out : exec_output) (e : jsval) :
  run_step h (GitClone (to_string templateUrl)) (clone_directory name) = inr out →
  fs_stat h (template_path h name templateName) = inl e →
  try_statement h name templateName templateUrl (World (Directory entries) r tr) =
  Completed tt (World (cloned h templateUrl entries)
    (cloned_history h (to_string templateUrl))
    (tr ++ cloned_events h name templateName templateUrl ++ [ConsoleError [e]])).
Proof.
  intros Hc Hs. unfold clone_directory, template_path, cloned_events, cloned in *.
  script_simpl. rewrite Hc. script_simpl. rewrite Hs. script_simpl. reflexivity.
Qed.

Lemma try_reset_fails (out : exec_output) (st : stats) (e : jsval) :
  run_step h (GitClone (to_string templateUrl)) (clone_directory name) = inr out →
  fs_stat h (template_path h name templateName) = inr st →
  isDirectory st = true →
  first_failure h history_reset (Some (template_directory name templateName)) = Some e →
  ∃ r', try_statement h name templateName templateUrl (World (Directory entries) r tr) =
        Completed tt (World (cloned h templateUrl entries) r'
          (tr ++ cloned_events h name templateName templateUrl ++
           [reset_event name templateName; ConsoleError [e]])).
Proof.
  intros Hc Hs Hd Hf.
  unfold clone_directory, template_path, template_directory, cloned_events,
    reset_event, cloned, first_failure, history_reset in *.
  destruct (run_step h RemoveGitDir _) as [e1|o1] eqn:E1;
    [|destruct (run_step h GitInit _) as [e2|o2] eqn:E2;
      [|destruct (run_step h GitAddAll _) as [e3|o3] eqn:E3;
        [|destruct (run_step h (GitCommit _) _) as [e4|o4] eqn:E4;
          [|discriminate Hf]]]];
    injection Hf as <-; eexists;
    script_simpl; rewrite Hc; script_simpl; rewrite Hs; script_simpl;
    rewrite Hd; script_simpl; rewrite ?E1, ?E2, ?E3, ?E4; script_simpl;
    rewrite ?E1, ?E2, ?E3, ?E4; script_simpl;
    rewrite ?E1, ?E2, ?E3, ?E4; script_simpl;
    rewrite ?E1, ?E2, ?E3, ?E4; script_simpl; reflexivity.
Qed.

Lemma try_installs (out : exec_output) (st : stats) :
  run_step h (GitClone (to_string templateUrl)) (clone_directory name) = inr out →
  fs_stat h (template_path h name templateName) = inr st →
  (isDirectory st = true →
   first_failure h history_reset (Some (template_directory name templateName)) = None) →
  try_statement h name templateName templateUrl (World (Directory entries) r tr) =
  Completed tt (World (cloned h templateUrl entries)
    (if isDirectory st then Some ["create front-end app"]
     else cloned_history h (to_string templateUrl))
    (tr ++ cloned_events h name templateName templateUrl ++
     (if isDirectory st then [reset_event name templateName] else []) ++
     install_events h name templateName ++ install_report h name templateName)).
Proof.
  intros Hc Hs Hf.
  unfold clone_directory, template_path, template_directory, cloned_events,
    reset_event, install_events, install_report, install_rejection, install_args,
    cloned, first_failure, history_reset in *.
  destruct (isDirectory st) eqn:Hd.
  - specialize (Hf eq_refl).
    destruct (run_step h RemoveGitDir _) as [e1|o1] eqn:E1; [discriminate Hf|].
    destruct (run_step h GitInit _) as [e2|o2] eqn:E2; [discriminate Hf|].
    destruct (run_step h GitAddAll _) as [e3|o3] eqn:E3; [discriminate Hf|].
    destruct (run_step h (GitCommit _) _) as [e4|o4] eqn:E4; [discriminate Hf|].
    script_simpl. rewrite Hc. script_simpl. rewrite Hs. script_simpl.
    rewrite Hd. script_simpl. rewrite E1. script_simpl. rewrite E2. script_simpl.
    rewrite E3. script_simpl. rewrite E4. script_simpl.
    destruct (spawn_close h _ _ _ =? 0)%Z; script_simpl; reflexivity.
  - clear Hf.
    script_simpl. rewrite Hc. script_simpl. rewrite Hs. script_simpl.
    rewrite Hd. script_simpl.
    destruct (spawn_close h _ _ _ =? 0)%Z; script_simpl; reflexivity.
Qed.

End TryStatement.

Section TrySummary.
Context (h : host) (name : string) (templateName templateUrl : jsval).

(** Whatever happens inside the [try] statement, it completes: the
    [catch] clause swallows every failure. *)
Lemma try_statement_run (entries : gmap string entry_kind)
  (r : option (list string)) (tr : list event) :
  ∃ r', try_statement h name templateName templateUrl (World (Directory entries) r tr) =
        Completed tt
          (World (Directory (after_clone h name templateUrl entries)) r'
                 (tr ++ try_events h name templateName templateUrl)).
Proof.
  unfold try_events, after_clone.
  destruct (run_step h (GitClone _) _) as [e|out] eqn:Hc.
  - eexists. by apply try_clone_fails.
  - destruct (fs_stat h _) as [e|st] eqn:Hs.
    + eexists. by eapply try_stat_fails.
    + destruct (isDirectory st) eqn:Hd.
      * destruct (first_failure h _ _) as [e|] eqn:Hf.
        -- destruct (try_reset_fails h name templateName templateUrl entries r tr
                       out st e Hc Hs Hd Hf) as [r' ->].
           by exists r'.
        -- eexists. rewrite (try_installs h name templateName templateUrl entries r tr
                               out st Hc Hs (λ _, Hf)), Hd.
           reflexivity.
      * eexists. rewrite (try_installs h name templateName templateUrl entries r tr
                            out st Hc Hs), Hd; [done|].
        intros Hd'. congruence.
Qed.

Lemma try_events_head :
  ∃ post, try_events h name templateName templateUrl =
          Exec ("git clone " +:+ to_string templateUrl) (clone_directory name) :: post.
Proof.
  unfold try_events, cloned_events.
  destruct (run_step h (GitClone _) _); eexists; reflexivity.
Qed.

End TrySummary.

(** ** The whole run *)

Section Run.
Import Observe.
Context (h : host) (name : string) (templateName templateUrl : jsval).

Lemma creatApp_reaches_try (n : node) (r : option (list string))
  (tr : list event) (out : exec_output) :
  name_valid h name = true →
  n ≠ RegularFile →
  run_step h GitVersion None = inr out →
  JsString.includes "git version" (stdout out) = true →
  ∃ r', creatApp h name templateName templateUrl (World n r tr) =
        Completed tt
          (World (Directory (after_clone h name templateUrl ∅)) r'
             (tr ++ node_warning h ++ probe_events h name ++ stderr_warning out ++
              clone_preamble h name templateName templateUrl out ++
              try_events h name templateName templateUrl)).
Proof.
  intros Hv Hn Hp Hm.
  rewrite (creatApp_marker h name templateName templateUrl (World n r tr) out Hv Hn Hp Hm).
  cbn [target history trace].
  destruct (try_statement_run h name templateName templateUrl ∅ r
              (tr ++ node_warning h ++ probe_events h name ++ stderr_warning out ++
               clone_preamble h name templateName templateUrl out)) as [r' ->].
  exists r'. by rewrite <- !app_assoc.
Qed.

Lemma reaches_try_true (n : node) :
  reaches_try h name n = true ↔
  name_valid h name = true ∧ n ≠ RegularFile ∧
  ∃ out, run_step h GitVersion None = inr out ∧
         JsString.includes "git version" (stdout out) = true.
Proof.
  unfold reaches_try, probe_passes. rewrite !andb_true_iff, negb_true_iff.
  split.
  - intros [[Hv Hn] Hp]. split; [done|]. split.
    + intros ->. discriminate Hn.
    + destruct (run_step h GitVersion None) as [e|out]; [discriminate Hp|].
      by exists out.
  - intros (Hv & Hn & out & -> & Hm). split; [split|]; try done.
    by destruct n.
Qed.

(** Neither the preliminaries nor the report of a bad name start a
    process in a working directory, or the installer. *)
Lemma node_warning_quiet :
  existsb is_spawn (node_warning h) = false ∧
  existsb is_work (node_warning h) = false ∧
  forallb is_console (node_warning h) = true.
Proof. unfold node_warning. by destruct (semver_satisfies _ _ _). Qed.

Lemma stderr_warning_quiet (out : exec_output) :
  existsb is_spawn (stderr_warning out) = false ∧
  existsb is_work (stderr_warning out) = false.
Proof. unfold stderr_warning. by destruct (truthy _). Qed.

Lemma violation_report_console (appName : string) (violations : list string) :
  forallb is_console (violation_report h appName violations) = true.
Proof.
  unfold violation_report. rewrite !forallb_app. cbn.
  rewrite andb_true_r. induction violations as [|v l IH]; [done | exact IH].
Qed.

(** The installer is started inside the [try] statement exactly when
    nothing before it throws. *)
Lemma installer_in_try :
  existsb is_spawn (try_events h name templateName templateUrl) = true ↔
  try_failure h name templateName templateUrl = None.
Proof.
  unfold try_events, try_failure.
  destruct (run_step h (GitClone _) _) as [e|out]; [done|].
  rewrite existsb_app. cbn [cloned_events existsb is_spawn orb].
  destruct (fs_stat h _) as [e|st]; [done|].
  destruct (isDirectory st); [|by cbn].
  destruct (first_failure h _ _); by cbn.
Qed.

(** When something throws, the last thing the [try] statement does is to
    print it. *)
Lemma try_failure_logged (e : jsval) :
  try_failure h name templateName templateUrl = Some e →
  last (try_events h name templateName templateUrl) = Some (ConsoleError [e]).
Proof.
  unfold try_events, try_failure.
  destruct (run_step h (GitClone _) _) as [e1|out].
  - by intros [= ->].
  - rewrite last_app. destruct (fs_stat h _) as [e2|st].
    + by intros [= ->].
    + destruct (isDirectory st); [|done].
      intros ->. reflexivity.
Qed.

End Run.

Section Reach.
Import Observe.
Context (h : host) (name : string) (templateName templateUrl : jsval).
Context (n : node) (r : option (list string)).

Lemma console_is_quiet (tr : list event) :
  forallb is_console tr = true →
  existsb is_spawn tr = false ∧ existsb is_work tr = false.
Proof.
  induction tr as [|e tr IH]; [done|]. cbn. rewrite andb_true_iff.
  intros [He Htr]. destruct (IH Htr) as [-> ->]. by destruct e.
Qed.

(** A run that does not get to the [try] statement starts nothing but
    the version probe. *)
Lemma creatApp_stops_short :
  reaches_try h name n = false →
  let tr := trace (final (creatApp h name templateName templateUrl (World n r []))) in
  existsb is_spawn tr = false ∧ existsb is_work tr = false.
Proof.
  unfold reaches_try, probe_passes. intros Hr.
  destruct (name_valid h name) eqn:Hv.
  - destruct n as [| |entries] eqn:Hn.
    + destruct (run_step h GitVersion None) as [e|out] eqn:Hp.
      * rewrite (creatApp_probe_fails h name templateName templateUrl
                   (World Absent r []) e Hv ltac:(done) Hp).
        cbn [final target history trace app]. rewrite !existsb_app.
        destruct node_warning_quiet with (h := h) as (-> & -> & _). by cbn.
      * rewrite (creatApp_no_marker h name templateName templateUrl
                   (World Absent r []) out Hv ltac:(done) Hp Hr).
        cbn [final target history trace app]. rewrite !existsb_app.
        destruct node_warning_quiet with (h := h) as (-> & -> & _).
        destruct (stderr_warning_quiet out) as (-> & ->). by cbn.
    + destruct (creatApp_not_directory h name templateName templateUrl
                  (World RegularFile r []) Hv eq_refl) as [e ->].
      cbn [final target history trace app]. rewrite !existsb_app.
      destruct node_warning_quiet with (h := h) as (-> & -> & _). by cbn.
    + destruct (run_step h GitVersion None) as [e|out] eqn:Hp.
      * rewrite (creatApp_probe_fails h name templateName templateUrl
                   (World (Directory entries) r []) e Hv ltac:(done) Hp).
        cbn [final target history trace app]. rewrite !existsb_app.
        destruct node_warning_quiet with (h := h) as (-> & -> & _). by cbn.
      * rewrite (creatApp_no_marker h name templateName templateUrl
                   (World (Directory entries) r []) out Hv ltac:(done) Hp Hr).
        cbn [final target history trace app]. rewrite !existsb_app.
        destruct node_warning_quiet with (h := h) as (-> & -> & _).
        destruct (stderr_warning_quiet out) as (-> & ->). by cbn.
  - rewrite (creatApp_invalid h name templateName templateUrl (World n r []) Hv).
    cbn [final target history trace app]. apply console_is_quiet.
    rewrite forallb_app, violation_report_console.
    by destruct node_warning_quiet with (h := h) as (_ & _ & ->).
Qed.

(** A run that gets to the [try] statement resolves, and its trace ends
    with the trace of the [try] statement. *)
Lemma creatApp_goes_through :
  reaches_try h name n = true →
  ∃ r' pre,
    creatApp h name templateName templateUrl (World n r []) =
    Completed tt
      (World (Directory (after_clone h name templateUrl ∅)) r'
         (pre ++ try_events h name templateName templateUrl)) ∧
    existsb is_spawn pre = false ∧
    ∃ pre', existsb is_work pre' = false ∧
            pre = pre' ++ [ EmptyDirSync name;
                            ConsoleLog [];
                            ConsoleLog [VString (chalk h Magenta "Find folder successfully!")];
                            ConsoleLog [templateUrl; templateName] ].
Proof.
  rewrite reaches_try_true. intros (Hv & Hn & out & Hp & Hm).
  destruct (creatApp_reaches_try h name templateName templateUrl n r [] out
              Hv Hn Hp Hm) as [r' Ho].
  exists r', (node_warning h ++ probe_events h name ++ stderr_warning out ++
              clone_preamble h name templateName templateUrl out).
  split; [|split].
  - rewrite Ho. cbn [app]. by rewrite <- !app_assoc.
  - rewrite !existsb_app.
    destruct node_warning_quiet with (h := h) as (-> & _ & _).
    destruct (stderr_warning_quiet out) as (-> & _). by cbn.
  - exists (node_warning h ++ probe_events h name ++ stderr_warning out ++
            [ ConsoleLog [VString (JsString.trim (stdout out))];
              ConsoleLog [];
              ConsoleLog [VString (chalk h Blue
                ("now clone the template in " +:+ chalk h Green name +:+ "...."))] ]).
    split.
    + rewrite !existsb_app.
      destruct node_warning_quiet with (h := h) as (_ & -> & _).
      destruct (stderr_warning_quiet out) as (_ & ->). by cbn.
    + unfold clone_preamble. by rewrite <- !app_assoc.
Qed.

End Reach.

(** * The claims *)

Section Claims.
Import Observe.



(** C2.  Making the project directory does not fail when it is already
    there, and leaves it as it is.  In every run that gets to the clone
    step, whatever the project directory held before, it is emptied
    right before the clone (only console output lies between the two,
    and no command ran in a working directory before), and after the run
    its entries are what the clone created, and nothing else: an entry
    found there is the freshly cloned directory. *)
Theorem directory_ensured_then_emptied (h : host) (name : string)
  (templateName templateUrl : jsval) :
  (∀ entries r tr,
     ensureDirSync name (World (Directory entries) r tr) =
     Completed tt (World (Directory entries) r (tr ++ [EnsureDirSync name]))) ∧
  (∀ n r,
     reaches_try h name n = true →
     let o := creatApp h name templateName templateUrl (World n r []) in
     (∃ pre post,
        work_attempted pre = false ∧
        trace (final o) =
        pre ++ [ EmptyDirSync name;
                 ConsoleLog [];
                 ConsoleLog [VString (chalk h Magenta "Find folder successfully!")];
                 ConsoleLog [templateUrl; templateName];
                 Exec ("git clone " +:+ to_string templateUrl) (clone_directory name) ]
            ++ post) ∧
     ∃ entries',
       target (final o) = Directory entries' ∧
       ∀ f k, entries' !! f = Some k →
              f = cloned_directory h (to_string templateUrl) ∧ k = DirEntry ∧
              ∃ out, run_step h (GitClone (to_string templateUrl))
                       (clone_directory name) = inr out).
Proof.
  split; [reflexivity|].
  intros n r Hr o.
  destruct (creatApp_goes_through h name templateName templateUrl n r Hr)
    as (r' & pre & Ho & _ & pre' & Hquiet & ->).
  destruct (try_events_head h name templateName templateUrl) as [post Hpost].
  subst o. rewrite Ho. cbn [final target trace]. split.
  - exists pre', post. split; [exact Hquiet|].
    rewrite Hpost, <- !app_assoc. reflexivity.
  - exists (after_clone h name templateUrl ∅). split; [done|].
    unfold after_clone. intros f k.
    destruct (run_step h (GitClone _) _) as [e|out].
    + by rewrite lookup_empty.
    + rewrite lookup_insert. case_decide as Hf.
      * intros [= <-]. eauto.
      * by rewrite lookup_empty.
Qed.

(** A project directory holding [sentinel.txt] holds the cloned
    [react-starter] and no [sentinel.txt] after the run. *)
Lemma directory_ensured_then_emptied_witness :
  ∃ entries',
    target (final (creatApp Sample.happy "my-app" (VString "react-starter")
                     (VString "https://github.com/webpack/react-starter.git")
                     (World Sample.seeded None []))) = Directory entries' ∧
    entries' !! "sentinel.txt" = None.
Proof.
  destruct (proj2 (directory_ensured_then_emptied Sample.happy "my-app"
                     (VString "react-starter")
                     (VString "https://github.com/webpack/react-starter.git"))
              Sample.seeded None eq_refl) as [_ (entries' & Ht & Honly)].
  exists entries'. split; [exact Ht|].
  destruct (entries' !! "sentinel.txt") as [k|] eqn:Hk; [|reflexivity].
  destruct (Honly _ _ Hk) as [Hf _]. discriminate Hf.
Defined.

(** C3.  In every run, a failure thrown by the clone, by the stat that
    follows it, or by the history reset is caught by the one handler:
    it is printed on the error output, the promise resolves (nothing
    propagates, no exit status is set) and the installer is not started.
    And for every run: the installer is started exactly when the run
    gets to the [try] statement and the clone, the stat and the history
    reset complete without throwing. *)
Theorem coarse_handler_guards_install (h : host) (name : string)
  (templateName templateUrl : jsval) (n : node) (r : option (list string)) :
  let o := creatApp h name templateName templateUrl (World n r []) in
  let clone := run_step h (GitClone (to_string templateUrl)) (clone_directory name) in
  let stat_result := fs_stat h (template_path h name templateName) in
  let reset := first_failure h history_reset
                 (Some (template_directory name templateName)) in
  (∀ e, reaches_try h name n = true → clone = inl e → caught e o) ∧
  (∀ e out, reaches_try h name n = true →
            clone = inr out → stat_result = inl e → caught e o) ∧
  (∀ e out st, reaches_try h name n = true →
               clone = inr out → stat_result = inr st → isDirectory st = true →
               reset = Some e → caught e o) ∧
  (installer_invoked (trace (final o)) = true ↔
   reaches_try h name n = true ∧
   ∃ out st, clone = inr out ∧ stat_result = inr st ∧
             (isDirectory st = true → reset = None)).
Proof.
  intros o clone stat_result reset.
  assert (Hcaught : ∀ e, reaches_try h name n = true →
                         try_failure h name templateName templateUrl = Some e →
                         caught e o).
  { intros e Hr Hf.
    destruct (creatApp_goes_through h name templateName templateUrl n r Hr)
      as (r' & pre & Ho & Hpre & _).
    subst o. rewrite Ho. unfold caught, installer_invoked.
    cbn [final trace resolved]. split; [done|]. split.
    - rewrite last_app, (try_failure_logged _ _ _ _ _ Hf). reflexivity.
    - rewrite existsb_app, Hpre. cbn [orb].
      destruct (existsb is_spawn (try_events h name templateName templateUrl))
        eqn:Hs; [|done].
      apply installer_in_try in Hs. congruence. }
  assert (Hnone : try_failure h name templateName templateUrl = None ↔
                  ∃ out st, clone = inr out ∧ stat_result = inr st ∧
                            (isDirectory st = true → reset = None)).
  { unfold try_failure. fold clone stat_result reset.
    destruct clone as [e|out].
    - split; [done | by intros (? & ? & ? & _)].
    - destruct stat_result as [e|st].
      + split; [done | by intros (? & ? & _ & ? & _)].
      + destruct (isDirectory st) eqn:Hd.
        * split; [intros Hf; exists out, st; by rewrite Hd |].
          intros (? & st' & _ & [= <-] & Hf). rewrite Hd in Hf. by apply Hf.
        * split; [intros _; exists out, st; by rewrite Hd | done]. }
  split; [|split; [|split; [|split]]].
  - intros e Hr Hc. apply Hcaught; [done|]. unfold try_failure. fold clone.
    by rewrite Hc.
  - intros e out Hr Hc Hs. apply Hcaught; [done|]. unfold try_failure.
    fold clone stat_result. by rewrite Hc, Hs.
  - intros e out st Hr Hc Hs Hd Hf. apply Hcaught; [done|]. unfold try_failure.
    fold clone stat_result reset. by rewrite Hc, Hs, Hd.
  - intros Hi. rewrite <- Hnone.
    destruct (reaches_try h name n) eqn:Hr.
    + split; [done|].
      destruct (creatApp_goes_through h name templateName templateUrl n r Hr)
        as (r' & pre & Ho & Hpre & _).
      subst o. rewrite Ho in Hi. unfold installer_invoked in Hi. cbn [final trace] in Hi.
      rewrite existsb_app, Hpre in Hi. cbn [orb] in Hi. by apply installer_in_try.
    + destruct (creatApp_stops_short h name templateName templateUrl n r Hr) as [Hs _].
      subst o. unfold installer_invoked in Hi. by rewrite Hs in Hi.
  - intros [Hr Hf]. rewrite <- Hnone in Hf.
    destruct (creatApp_goes_through h name templateName templateUrl n r Hr)
      as (r' & pre & Ho & Hpre & _).
    subst o. rewrite Ho. unfold installer_invoked. cbn [final trace].
    rewrite existsb_app, Hpre. cbn [orb]. by apply installer_in_try.
Qed.

(** A clone that fails is printed, and the promise resolves without the
    installer. *)
Lemma coarse_handler_guards_install_witness :
  caught (VError "fatal: repository not found")
    (creatApp Sample.clone_refused "my-app" (VString "react-starter")
       (VString "https://github.com/webpack/react-starter.git")
       (World Absent None [])).
Proof.
  apply (proj1 (coarse_handler_guards_install Sample.clone_refused "my-app"
                  (VString "react-starter")
                  (VString "https://github.com/webpack/react-starter.git")
                  Absent None)).
  - reflexivity.
  - reflexivity.
Defined.

(** C6.  After a clone that succeeds, when [./name/templateName] is a
    directory, the workflow runs there the command
    [rm -rf .git && git init && git add . && git commit -m "create front-end app"];
    when the command succeeds the history of that directory is the one
    commit with that message, whatever history the clone brought, and
    the installer is started next with that same directory as its
    working directory. *)
Theorem history_reset_then_install (h : host) (name : string)
  (templateName templateUrl : jsval) (n : node) (r : option (list string))
  (out : exec_output) :
  reaches_try h name n = true →
  run_step h (GitClone (to_string templateUrl)) (clone_directory name) = inr out →
  fs_stat h (template_path h name templateName) = inr (Stats true) →
  let o := creatApp h name templateName templateUrl (World n r []) in
  let nested := "./" +:+ name +:+ "/" +:+ to_string templateName in
  let command :=
    "rm -rf .git && git init && git add . && git commit -m " +:+
    JsString.dquote +:+ "create front-end app" +:+ JsString.dquote in
  In (Exec command (Some nested)) (trace (final o)) ∧
  (first_failure h history_reset (Some nested) = None →
   history (final o) = Some ["create front-end app"] ∧
   ∃ pre post,
     trace (final o) =
     pre ++ [ Exec command (Some nested);
              ConsoleLog [VString (chalk h Blue
                "Delete the origin git and add new git commit first time!!!")];
              Spawn "npm" ["install"; "--save"; "--loglevel"; "error"] nested ]
         ++ post).
Proof.
  intros Hr Hc Hs o nested command.
  apply reaches_try_true in Hr as (Hv & Hn & pout & Hp & Hm).
  subst o.
  rewrite (creatApp_marker h name templateName templateUrl (World n r []) pout
             Hv Hn Hp Hm).
  cbn [target history trace app].
  set (tr := node_warning h ++ _).
  destruct (first_failure h history_reset (Some nested)) as [e|] eqn:Hf.
  - destruct (try_reset_fails h name templateName templateUrl ∅ r tr out
                (Stats true) e Hc Hs eq_refl Hf) as [r' ->].
    split; [|done]. cbn [final trace]. rewrite !in_app_iff.
    right. right. by left.
  - rewrite (try_installs h name templateName templateUrl ∅ r tr out
               (Stats true) Hc Hs (λ _, Hf)).
    cbn [final trace history isDirectory]. split.
    + rewrite !in_app_iff. right. right. left. by left.
    + intros _. split; [done|].
      exists (tr ++ cloned_events h name templateName templateUrl).
      exists (skipn 2 (install_events h name templateName) ++
              install_report h name templateName).
      rewrite <- !app_assoc. reflexivity.
Qed.

(** On a host where everything works, the one commit replaces the two
    that the clone brought. *)
Lemma history_reset_then_install_witness :
  history (final (creatApp Sample.happy "my-app" (VString "react-starter")
                    (VString "https://github.com/webpack/react-starter.git")
                    (World Absent None []))) =
  Some ["create front-end app"].
Proof.
  apply (history_reset_then_install Sample.happy "my-app" (VString "react-starter")
           (VString "https://github.com/webpack/react-starter.git")
           Absent None (ExecOutput "" "")); reflexivity.
Defined.

(** C4.  For a project name whose base name (of the path resolved from
    it) is not valid for a new package, and a validator that reports at
    least one violation for every name it refuses: the workflow prints
    the violations, errors first and warnings next, one line each in
    their order (the lines of [violation_report]), and the process exits
    with status 1; the project directory is as it was and nothing but
    console output happened, so the directory creation is never
    reached. *)
Theorem invalid_name_is_fatal (h : host) (name : string)
  (templateName templateUrl : jsval) (n : node) (r : option (list string)) :
  (∀ s, validForNewPackages (validateProjectName h s) = false →
        default [] (errors (validateProjectName h s)) ++
        default [] (warnings (validateProjectName h s)) ≠ []) →
  name_valid h name = false →
  let appName := path_basename h (path_resolve h name) in
  let violations :=
    default [] (errors (validateProjectName h appName)) ++
    default [] (warnings (validateProjectName h appName)) in
  violations ≠ [] ∧
  creatApp h name templateName templateUrl (World n r []) =
  Exited 1 (World n r (node_warning h ++ violation_report h appName violations)) ∧
  console_only (node_warning h ++ violation_report h appName violations) = true ∧
  existsb is_directory_write
    (node_warning h ++ violation_report h appName violations) = false.
Proof.
  intros Hlib Hv appName violations. split; [by apply Hlib|].
  rewrite (creatApp_invalid h name templateName templateUrl (World n r []) Hv).
  cbn [target history trace app]. fold appName violations.
  split; [reflexivity|].
  assert (Hc : console_only (node_warning h ++
                 violation_report h appName violations) = true).
  { unfold console_only. rewrite forallb_app, violation_report_console.
    by destruct node_warning_quiet with (h := h) as (_ & _ & ->). }
  split; [exact Hc|].
  revert Hc. generalize (node_warning h ++ violation_report h appName violations).
  intros tr. unfold console_only.
  induction tr as [|e tr IH]; [done|]. cbn. rewrite andb_true_iff.
  intros [He Htr]. rewrite (IH Htr). by destruct e.
Qed.

(** ["My App"] is refused with two violations and exit status 1, and no
    directory is made. *)
Lemma invalid_name_is_fatal_witness :
  creatApp Sample.happy "My App" (VString "react-starter")
    (VString "https://github.com/webpack/react-starter.git")
    (World Absent None []) =
  Exited 1
    (World Absent None
       [ ConsoleError [VString ("Cannot create a project named " +:+
           JsString.dquote +:+ "My App" +:+ JsString.dquote +:+
           " because of npm naming restrictions:" +:+ JsString.nl)];
         ConsoleError [VString "  * name can only contain URL-friendly characters"];
         ConsoleError [VString "  * name can no longer contain capital letters"];
         ConsoleError [VString (JsString.nl +:+ "Please choose a different project name.")] ]).
Proof.
  assert (Hlib : ∀ s, validForNewPackages (validateProjectName Sample.happy s) = false →
                      default [] (errors (validateProjectName Sample.happy s)) ++
                      default [] (warnings (validateProjectName Sample.happy s)) ≠ []).
  { intros s. cbn. unfold Sample.validate.
    destruct s; [done|].
    destruct (Sample.all_chars Sample.url_friendly _); [done|].
    by destruct (Sample.all_chars _ _). }
  destruct (invalid_name_is_fatal Sample.happy "My App" (VString "react-starter")
              (VString "https://github.com/webpack/react-starter.git")
              Absent None Hlib eq_refl) as [_ [Ho _]].
  rewrite Ho. reflexivity.
Defined.

(** ** The entry points *)

Lemma strict_eq_refl (v : jsval) : strict_eq v v = true.
Proof. unfold strict_eq. by apply bool_decide_eq_true_2. Qed.

Lemma strict_eq_strings (a b : string) :
  a ≠ b → strict_eq (VString a) (VString b) = false.
Proof. intros Hab. unfold strict_eq. apply bool_decide_eq_false_2. congruence. Qed.

Lemma truthy_string (s : string) : truthy (VString s) = true ↔ s ≠ EmptyString.
Proof. destruct s; cbn; split; done. Qed.

Ltac entry_simpl :=
  repeat progress
    (unfold mbind, M_bind, mret, M_ret, emit, console_log, console_error,
       process_exit;
     cbn [target history trace default nth andb project_directory]);
  rewrite <- ?app_assoc; cbn [app].

(** What [init] does once the custom template is chosen. *)
Lemma init_custom (h : host) (name : string) (flag : option string) (w : world) :
  select_answer h = "custom" →
  InteractiveCli.init h (Argv (Some name) flag) w =
  let cusName := VString (input_answer h "templateName") in
  let cusUrl := VString (input_answer h "templateUrl") in
  let asked := World (target w) (history w) (trace w ++ custom_questions) in
  if negb (truthy cusName) || negb (truthy cusUrl) then
    Exited 0 (World (target w) (history w)
                (trace w ++ custom_questions ++ custom_reminder h))
  else creatApp h name cusName cusUrl asked.
Proof.
  intros Hsel. destruct w as [n r tr].
  unfold InteractiveCli.init, InteractiveCli.qa, InteractiveCli.select,
    InteractiveCli.input, custom_questions, custom_reminder.
  rewrite Hsel. entry_simpl. rewrite strict_eq_refl.
  entry_simpl. rewrite strict_eq_refl. cbn [andb].
  destruct (negb (truthy (VString (input_answer h "templateName"))) ||
            negb (truthy (VString (input_answer h "templateUrl"))));
    entry_simpl; reflexivity.
Qed.

(** C5.  In the interactive flow, once the custom template is selected:
    if the template name or the template location typed is blank, the
    process prints the reminder and exits with status 0, the project
    directory untouched and nothing done but the three prompts and the
    reminder; if both are typed, the workflow runs with exactly that
    name and that location. *)
Theorem custom_template_needs_both_answers (h : host) (name : string)
  (flag : option string) (w : world) :
  select_answer h = "custom" →
  let cusName := input_answer h "templateName" in
  let cusUrl := input_answer h "templateUrl" in
  (cusName = EmptyString ∨ cusUrl = EmptyString →
   InteractiveCli.init h (Argv (Some name) flag) w =
   Exited 0 (World (target w) (history w)
               (trace w ++ custom_questions ++ custom_reminder h)) ∧
   forallb (λ e, is_console e || is_prompt e)
     (custom_questions ++ custom_reminder h) = true) ∧
  (cusName ≠ EmptyString → cusUrl ≠ EmptyString →
   InteractiveCli.init h (Argv (Some name) flag) w =
   creatApp h name (VString cusName) (VString cusUrl)
     (World (target w) (history w) (trace w ++ custom_questions))).
Proof.
  intros Hsel cusName cusUrl. rewrite (init_custom h name flag w Hsel).
  cbv zeta. fold cusName cusUrl. split.
  - intros Hblank. split; [|reflexivity].
    destruct Hblank as [-> | ->]; [done|]. by rewrite orb_true_r.
  - intros Hn Hu. apply truthy_string in Hn, Hu. by rewrite Hn, Hu.
Qed.

(** With the location left blank the process exits with status 0 and
    the project directory is still absent. *)
Lemma custom_template_needs_both_answers_witness :
  InteractiveCli.init (Sample.custom "foo" "") (Argv (Some "my-app") None)
    (World Absent None []) =
  Exited 0
    (World Absent None
       [ Prompt "Which template you want choice?";
         Prompt "Please input your own template git name:";
         Prompt "Please input your own template git url:";
         ConsoleLog [];
         ConsoleLog [VString "You must input your own template!!!"];
         ConsoleLog [] ]).
Proof.
  apply (custom_template_needs_both_answers (Sample.custom "foo" "") "my-app" None
           (World Absent None [])).
  - reflexivity.
  - right. reflexivity.
Defined.

(** C9.  Without the project directory on the command line, either
    entry point prints the usage lines with an example and exits with
    status 0; nothing but console output happens and the project
    directory is as it was. *)
Theorem missing_project_directory_exits_zero (h : host) (flag : option string)
  (w : world) :
  FlagCli.init h (Argv None flag) w =
  Exited 0 (World (target w) (history w)
              (trace w ++ usage_events h "Ceridian-project")) ∧
  InteractiveCli.init h (Argv None flag) w =
  Exited 0 (World (target w) (history w)
              (trace w ++ usage_events h "Custom-react-project")) ∧
  ∀ example, console_only (usage_events h example) = true ∧
             existsb is_directory_write (usage_events h example) = false.
Proof.
  destruct w as [n r tr]. split; [|split].
  - unfold FlagCli.init, usage_events. entry_simpl. reflexivity.
  - unfold InteractiveCli.init, usage_events. entry_simpl. reflexivity.
  - done.
Qed.

(** A catalog key is an own property: the lookup stops there. *)
Lemma get_property_own (own : gmap string string) (key url : string) :
  own !! key = Some url → get_property own key = VString url.
Proof. intros Hk. unfold get_property. by rewrite Hk. Qed.

Lemma custom_not_in_catalog : InteractiveCli.templateUrls !! "custom" = None.
Proof. reflexivity. Qed.

(** C7.  For every key of either catalog, selecting that key runs the
    workflow with that key as the template name and the catalog's entry
    as the template location.  The lookup is a function of the catalog
    and the key alone, and the world is handed to the workflow as it was
    when the selection was known: the resolution does nothing to it. *)
Theorem catalog_key_resolves_to_its_entry (h : host) (name : string)
  (flag : option string) (w : world) (key url : string) :
  (FlagCli.templeUrls !! key = Some url →
   get_property FlagCli.templeUrls key = VString url ∧
   FlagCli.init h (Argv (Some name) (Some key)) w =
   creatApp h name (VString key) (VString url) w) ∧
  (InteractiveCli.templateUrls !! key = Some url →
   select_answer h = key →
   get_property InteractiveCli.templateUrls key = VString url ∧
   InteractiveCli.init h (Argv (Some name) flag) w =
   creatApp h name (VString key) (VString url)
     (World (target w) (history w)
        (trace w ++ [Prompt "Which template you want choice?"]))).
Proof.
  split.
  - intros Hk. pose proof (get_property_own _ _ _ Hk) as Hg. split; [done|].
    unfold FlagCli.init. cbn -[creatApp get_property].
    by rewrite Hg.
  - intros Hk Hsel. pose proof (get_property_own _ _ _ Hk) as Hg. split; [done|].
    assert (Hne : key ≠ "custom").
    { intros ->. by rewrite custom_not_in_catalog in Hk. }
    destruct w as [n r tr].
    unfold InteractiveCli.init, InteractiveCli.qa, InteractiveCli.select.
    rewrite Hsel. entry_simpl. rewrite (strict_eq_strings _ _ Hne).
    entry_simpl. rewrite (strict_eq_strings _ _ Hne).
    cbn [andb to_string]. by rewrite Hg.
Qed.

(** The one key of the flag-based catalog. *)
Lemma catalog_key_resolves_to_its_entry_witness :
  FlagCli.init Sample.happy (Argv (Some "my-app") (Some "react-starter"))
    (World Absent None []) =
  creatApp Sample.happy "my-app" (VString "react-starter")
    (VString "https://github.com/webpack/react-starter.git")
    (World Absent None []).
Proof.
  apply (proj1 (catalog_key_resolves_to_its_entry Sample.happy "my-app" None
                  (World Absent None []) "react-starter"
                  "https://github.com/webpack/react-starter.git")).
  reflexivity.
Defined.

(** On a host where every spawn starts and closes with an exit status,
    the installer is [install] as the workflow has it. *)
Lemma install_when_closing (h : host) (root : string)
  (dependencies : list string) (w : world) :
  Spawning.install h (Spawning.closing h) root dependencies w =
  install h root dependencies w.
Proof.
  destruct w as [n r tr]. unfold Spawning.install, Spawning.closing, install.
  entry_simpl.
  destruct (spawn_close h _ _ _) as [|p|p]; reflexivity.
Qed.

(** C8, as stated, fails: a spawn that throws (here the working
    directory is a regular file) rejects the promise of the installer,
    though no process has exited with any code, and the value of the
    rejection is the error thrown, not an object with a [command]. *)
Lemma install_rejection_counterexample :
  let child := λ _ _ _, Spawning.SpawnThrows (VError "spawn ENOTDIR") in
  let o := Spawning.install Sample.happy child "my-app/README.md" []
             (World Absent None []) in
  o = Thrown (VError "spawn ENOTDIR")
        (World Absent None
           [Spawn "npm" ["install"; "--save"; "--loglevel"; "error"]
              "./my-app/README.md"]) ∧
  (∀ code, child "npm" ["install"; "--save"; "--loglevel"; "error"]
             "./my-app/README.md" ≠ Spawning.Closes code) ∧
  (∀ fields, VError "spawn ENOTDIR" ≠ VObject fields).
Proof. cbv zeta. split; [reflexivity|]. split; discriminate. Qed.

(** C8, amended.  In every invocation of the installer in which the
    process is started and closes, the promise is rejected exactly when
    the close code is not 0 (an exit status other than 0, or [null]
    when a signal ended the process); it is then rejected with the
    object whose one field [command] is the command line, and with code
    0 it resolves with no value.  When [spawn] itself throws, the
    promise is rejected with what it throws; when the process cannot be
    started, nothing listens to the ['error'] of the child and the
    process ends with status 1, the promise neither resolved nor
    rejected.  Called as the workflow calls it, the command line is
    [npm install --save --loglevel error]. *)
Theorem install_settles_as_the_spawn_goes (h : host)
  (child : string → list string → string → Spawning.spawned)
  (root : string) (dependencies : list string) (w : world) :
  let args := ["install"; "--save"; "--loglevel"; "error"] ++ dependencies in
  let o := Spawning.install h child root dependencies w in
  (∀ code, child "npm" args ("./" +:+ root) = Spawning.Closes code →
     ((∃ e w', o = Thrown e w') ↔ code ≠ Some 0%Z) ∧
     (code ≠ Some 0%Z →
      ∃ w', o = Thrown (VObject [("command",
                                  "npm" +:+ " " +:+ JsString.join " " args)]) w') ∧
     (code = Some 0%Z → ∃ w', o = Completed tt w')) ∧
  (∀ e, child "npm" args ("./" +:+ root) = Spawning.SpawnThrows e →
        ∃ w', o = Thrown e w') ∧
  (∀ e, child "npm" args ("./" +:+ root) = Spawning.SpawnError e →
        ∃ w', o = Exited 1 w') ∧
  "npm" +:+ " " +:+
    JsString.join " " (["install"; "--save"; "--loglevel"; "error"] ++ []) =
  "npm install --save --loglevel error".
Proof.
  intros args o. subst o. unfold Spawning.install. fold args.
  destruct w as [n r tr]. entry_simpl.
  split; [|split; [|split; [|reflexivity]]].
  - intros code ->. entry_simpl. unfold throw.
    destruct code as [[|p|p]|]; entry_simpl.
    + split; [|split; [done | eauto]].
      split; [by intros (e & w' & [=]) | done].
    + split; [|split; [eauto | done]]. split; [done | eauto].
    + split; [|split; [eauto | done]]. split; [done | eauto].
    + split; [|split; [eauto | done]]. split; [done | eauto].
  - intros e ->. unfold throw. eauto.
  - intros e ->. entry_simpl. eauto.
Qed.

(** A process that closes with code 1, and one that a signal ends. *)
Lemma install_settles_as_the_spawn_goes_witness :
  (∃ w', Spawning.install Sample.happy (λ _ _ _, Spawning.Closes (Some 1%Z))
           "my-app/react-starter" [] (World Absent None []) =
         Thrown (VObject [("command", "npm install --save --loglevel error")]) w') ∧
  (∃ w', Spawning.install Sample.happy (λ _ _ _, Spawning.Closes None)
           "my-app/react-starter" [] (World Absent None []) =
         Thrown (VObject [("command", "npm install --save --loglevel error")]) w').
Proof.
  split.
  - apply (proj1 (install_settles_as_the_spawn_goes Sample.happy
                    (λ _ _ _, Spawning.Closes (Some 1%Z)) "my-app/react-starter" []
                    (World Absent None [])) (Some 1%Z) eq_refl).
    discriminate.
  - apply (proj1 (install_settles_as_the_spawn_goes Sample.happy
                    (λ _ _ _, Spawning.Closes None) "my-app/react-starter" []
                    (World Absent None [])) None eq_refl).
    discriminate.
Defined.

(** A command is run in a working directory exactly in the runs that get
    to the [try] statement, and the first such command is the clone. *)
Lemma work_iff_reaches_try (h : host) (name : string)
  (templateName templateUrl : jsval) (n : node) (r : option (list string)) :
  let o := creatApp h name templateName templateUrl (World n r []) in
  (work_attempted (trace (final o)) = true ↔ reaches_try h name n = true) ∧
  (reaches_try h name n = true →
   In (Exec ("git clone " +:+ to_string templateUrl) (Some ("./" +:+ name)))
      (trace (final o))).
Proof.
  intros o. subst o. destruct (reaches_try h name n) eqn:Hr.
  - destruct (creatApp_goes_through h name templateName templateUrl n r Hr)
      as (r' & pre & -> & _ & _).
    destruct (try_events_head h name templateName templateUrl) as [post ->].
    cbn [final trace]. unfold work_attempted. rewrite existsb_app.
    cbn [existsb is_work clone_directory]. rewrite orb_true_r. split; [done|].
    intros _. rewrite in_app_iff. right. by left.
  - destruct (creatApp_stops_short h name templateName templateUrl n r Hr) as [_ Hw].
    unfold work_attempted. rewrite Hw. done.
Qed.

(** C10, as stated, fails: [constructor] is not a key of the catalog,
    yet the lookup finds the function inherited from [Object.prototype],
    and the clone is attempted with the text of that function, not with
    [undefined]. *)
Lemma template_flag_unchecked_counterexample :
  let value := "constructor" in
  let o := FlagCli.init Sample.happy (Argv (Some "my-app") (Some value))
             (World Absent None []) in
  FlagCli.templeUrls !! value = None ∧
  get_property FlagCli.templeUrls value ≠ VUndefined ∧
  In (Exec "git clone function Object() { [native code] }" (Some "./my-app"))
     (trace (final o)) ∧
  ¬ In (Exec "git clone undefined" (Some "./my-app")) (trace (final o)).
Proof.
  cbv zeta. split; [reflexivity|]. split; [discriminate|]. split.
  - vm_compute. do 11 right. left. reflexivity.
  - vm_compute. intros Hin.
    repeat (destruct Hin as [Heq|Hin]; [discriminate Heq|]). exact Hin.
Qed.

(** The lookup in a list of properties. *)
Lemma assoc_None (key : string) (l : list (string * jsval)) :
  assoc key l = None ↔ ¬ In key (map fst l).
Proof.
  induction l as [|[k v] l IH]; cbn; [tauto|].
  destruct (String.eqb_spec key k) as [->|Hne].
  - split; [discriminate | intros Hn; exfalso; apply Hn; by left].
  - rewrite IH. split.
    + intros Hn [Hk|Hin]; [by apply Hne | by apply Hn].
    + intros Hn Hin. apply Hn. by right.
Qed.

Lemma assoc_Some (key : string) (l : list (string * jsval)) (v : jsval) :
  assoc key l = Some v → In (key, v) l.
Proof.
  induction l as [|[k v'] l IH]; cbn; [discriminate|].
  destruct (String.eqb_spec key k) as [->|Hne].
  - intros [= ->]. by left.
  - intros Hv. right. by apply IH.
Qed.

(** What [Object.prototype] holds is a built-in function or object. *)
Lemma inherited_is_native (key : string) (v : jsval) :
  In (key, v) Object_prototype → ∃ text, v = VNative text.
Proof.
  unfold Object_prototype, native_function. cbn [In].
  intros Hin. repeat (destruct Hin as [[= _ <-]|Hin]; [by eexists|]).
  destruct Hin.
Qed.

(** C10, amended.  The value of [--template] is not checked against the
    catalog: for every value that is no key of the catalog, nothing is
    thrown on the way and the workflow is entered with that value as the
    template name and the result of the lookup as the location, and in
    every run that gets to the clone step the command is [git clone]
    with the text of that result.  For a value that is not the name of a
    property inherited from [Object.prototype] (the twelve names
    listed), the lookup is [undefined] and the command is
    [git clone undefined].  For the name of an inherited property the
    lookup is the inherited value, a built-in function or object and
    never [undefined], and the command is [git clone] with the text of
    that value. *)
Theorem template_flag_unchecked (h : host) (name value : string) (n : node)
  (r : option (list string)) :
  FlagCli.templeUrls !! value = None →
  let o := FlagCli.init h (Argv (Some name) (Some value)) (World n r []) in
  let location := get_property FlagCli.templeUrls value in
  let cloned_with text :=
    reaches_try h name n = true →
    In (Exec ("git clone " +:+ text) (Some ("./" +:+ name))) (trace (final o)) in
  o = creatApp h name (VString value) location (World n r []) ∧
  (work_attempted (trace (final o)) = true ↔ reaches_try h name n = true) ∧
  cloned_with (to_string location) ∧
  map fst Object_prototype =
    [ "constructor"; "__defineGetter__"; "__defineSetter__"; "hasOwnProperty";
      "__lookupGetter__"; "__lookupSetter__"; "isPrototypeOf";
      "propertyIsEnumerable"; "toString"; "valueOf"; "__proto__";
      "toLocaleString" ] ∧
  (¬ In value (map fst Object_prototype) →
   location = VUndefined ∧ cloned_with "undefined") ∧
  (In value (map fst Object_prototype) →
   ∃ text, In (value, VNative text) Object_prototype ∧
           location = VNative text ∧ location ≠ VUndefined ∧
           cloned_with text).
Proof.
  intros Hk o location cloned_with.
  assert (Hg : location = default VUndefined (assoc value Object_prototype)).
  { subst location. unfold get_property. by rewrite Hk. }
  assert (Ho : o = creatApp h name (VString value) location (World n r [])).
  { reflexivity. }
  destruct (work_iff_reaches_try h name (VString value) location n r)
    as [Hwork Hclone].
  rewrite <- Ho in Hwork, Hclone.
  split; [done|]. split; [done|]. split; [exact Hclone|]. split; [reflexivity|].
  split.
  - intros Hn. apply assoc_None in Hn. rewrite Hn in Hg. cbn in Hg.
    split; [done|]. unfold cloned_with. by rewrite Hg in Hclone.
  - intros Hin.
    destruct (assoc value Object_prototype) as [v|] eqn:Ha.
    + pose proof (assoc_Some _ _ _ Ha) as Hv.
      destruct (inherited_is_native _ _ Hv) as [text ->].
      cbn in Hg. exists text. split; [done|]. split; [done|].
      split; [by rewrite Hg|]. unfold cloned_with. by rewrite Hg in Hclone.
    + by apply assoc_None in Ha.
Qed.

(** [--template vue-starter]: the clone is attempted with [undefined];
    [--template toString]: with the text of the function. *)
Lemma template_flag_unchecked_witness :
  In (Exec "git clone undefined" (Some "./my-app"))
     (trace (final (FlagCli.init Sample.happy
                      (Argv (Some "my-app") (Some "vue-starter"))
                      (World Absent None [])))) ∧
  ∃ text,
    In ("toString", VNative text) Object_prototype ∧
    In (Exec ("git clone " +:+ text) (Some "./my-app"))
       (trace (final (FlagCli.init Sample.happy
                        (Argv (Some "my-app") (Some "toString"))
                        (World Absent None [])))).
Proof.
  split.
  - destruct (template_flag_unchecked Sample.happy "my-app" "vue-starter" Absent None
                eq_refl) as (_ & _ & _ & _ & Hplain & _).
    apply Hplain; [|reflexivity].
    cbn. intros Hin.
    repeat (destruct Hin as [Hin|Hin]; [discriminate Hin|]). exact Hin.
  - destruct (template_flag_unchecked Sample.happy "my-app" "toString" Absent None
                eq_refl) as (_ & _ & _ & _ & _ & Hinherited).
    destruct Hinherited as (text & Hin & _ & _ & Hclone).
    + cbn. do 8 right. by left.
    + exists text. split; [exact Hin|]. apply Hclone. reflexivity.
Defined.

End Claims.

(** * Runs on the sample host *)

Section Scenarios.
Import Observe.

(** [cli my-app]: the default template is cloned into [my-app], its
    history becomes the one commit, and npm runs in
    [./my-app/react-starter]. *)
Example flag_run_default :
  let o := FlagCli.init Sample.happy (Argv (Some "my-app") None)
             (World Sample.seeded None []) in
  resolved o = true ∧
  target (final o) = Directory {[ "react-starter" := DirEntry ]} ∧
  history (final o) = Some ["create front-end app"] ∧
  skipn 11 (trace (final o)) =
  [ Exec ("git clone " +:+ Sample.react_starter) (Some "./my-app");
    ConsoleLog [];
    ConsoleLog [VString "Downloading success!!!"];
    ConsoleLog [];
    Stat "/home/dev/my-app/react-starter";
    Exec ("rm -rf .git && git init && git add . && git commit -m " +:+
          JsString.dquote +:+ "create front-end app" +:+ JsString.dquote)
         (Some "./my-app/react-starter");
    ConsoleLog [VString "Delete the origin git and add new git commit first time!!!"];
    Spawn "npm" ["install"; "--save"; "--loglevel"; "error"] "./my-app/react-starter";
    ConsoleLog [];
    ConsoleLog [VString "Install dependencies...."] ].
Proof. vm_compute. repeat split; reflexivity. Qed.

(** The custom template [foo]: the clone takes the location typed, and
    the directory looked for is [foo]. *)
Example interactive_run_custom :
  let o := InteractiveCli.init (Sample.custom "foo" "https://example.com/foo.git")
             (Argv (Some "my-app") None) (World Absent None []) in
  In (Exec "git clone https://example.com/foo.git" (Some "./my-app")) (trace (final o)) ∧
  In (Stat "/home/dev/my-app/foo") (trace (final o)) ∧
  In (Spawn "npm" ["install"; "--save"; "--loglevel"; "error"] "./my-app/foo")
     (trace (final o)).
Proof. vm_compute. repeat split; repeat (try (left; reflexivity); right). Qed.

(** A complaint of the probe does not stop the run. *)
Example complaint_is_only_a_warning :
  let o := creatApp Sample.complaining "my-app" (VString "react-starter")
             (VString Sample.react_starter) (World Absent None []) in
  nth 4 (trace (final o)) (ConsoleLog []) =
    ConsoleError [VString "warning: old config"] ∧
  installer_invoked (trace (final o)) = true.
Proof. vm_compute. split; reflexivity. Qed.

(** The cloned repository has no directory [react-starter]: the stat
    throws, the error is printed and nothing is installed. *)
Example layout_mismatch_is_swallowed :
  let o := creatApp Sample.layout_mismatch "my-app" (VString "react-starter")
             (VString Sample.react_starter) (World Absent None []) in
  resolved o = true ∧
  last (trace (final o)) =
    Some (ConsoleError [VError "ENOENT: no such file or directory"]) ∧
  installer_invoked (trace (final o)) = false.
Proof. vm_compute. repeat split; reflexivity. Qed.

(** The commit fails: the history is left reset but empty, and nothing
    is installed. *)
Example failed_commit_is_swallowed :
  let o := creatApp Sample.commit_refused "my-app" (VString "react-starter")
             (VString Sample.react_starter) (World Absent None []) in
  resolved o = true ∧
  history (final o) = Some [] ∧
  last (trace (final o)) = Some (ConsoleError [VError "Author identity unknown"]) ∧
  installer_invoked (trace (final o)) = false.
Proof. vm_compute. repeat split; reflexivity. Qed.

(** The installer fails: the rejection is printed by the same handler. *)
Example failed_install_is_swallowed :
  let o := creatApp Sample.install_fails "my-app" (VString "react-starter")
             (VString Sample.react_starter) (World Absent None []) in
  resolved o = true ∧
  last (trace (final o)) =
    Some (ConsoleError [VObject [("command", "npm install --save --loglevel error")]]).
Proof. vm_compute. split; reflexivity. Qed.

(** A project directory that is a regular file: the promise is
    rejected before the probe. *)
Example file_in_the_way :
  ∃ e, creatApp Sample.happy "my-app" (VString "react-starter")
         (VString Sample.react_starter) (World RegularFile None []) =
       Thrown e (World RegularFile None [EnsureDirSync "my-app"]).
Proof. eexists. vm_compute. reflexivity. Qed.

End Scenarios.

(** * More properties of the script *)

Ltac entry_steps :=
  repeat progress
    (unfold mbind, M_bind, mret, M_ret, emit, console_log, console_error,
       process_exit;
     cbn [target history trace default nth andb project_directory]);
  rewrite <- ?app_assoc; cbn [app].

Section Outcomes.
Import Observe.
Context (h : host) (name : string) (templateName templateUrl : jsval).

(** The four ways a run of [creatApp] ends. *)
Lemma creatApp_ends (w : world) :
  let o := creatApp h name templateName templateUrl w in
  (name_valid h name = false ∧
   ∃ tr, o = Exited 1 (World (target w) (history w) (trace w ++ tr)) ∧
         console_only tr = true) ∨
  (name_valid h name = true ∧ target w = RegularFile ∧
   ∃ e, o = Thrown e (World RegularFile (history w)
                        (trace w ++ node_warning h ++ [EnsureDirSync name]))) ∨
  (name_valid h name = true ∧ target w ≠ RegularFile ∧
   ∃ e, run_step h GitVersion None = inl e ∧
        o = Thrown e (World (ensured (target w)) (history w)
                        (trace w ++ node_warning h ++ probe_events h name))) ∨
  (name_valid h name = true ∧ target w ≠ RegularFile ∧
   ∃ out w', run_step h GitVersion None = inr out ∧ o = Completed tt w').
Proof.
  intros o. subst o. destruct (name_valid h name) eqn:Hv.
  - right.
    assert (target w = RegularFile ∨ target w ≠ RegularFile) as [Hn|Hn]
      by (destruct (target w); auto).
    + left. split; [done|]. split; [done|].
      destruct (creatApp_not_directory h name templateName templateUrl w Hv Hn)
        as [e He].
      by exists e.
    + right. destruct (run_step h GitVersion None) as [e|out] eqn:Hp.
      * left. split; [done|]. split; [done|]. exists e. split; [done|].
        by apply creatApp_probe_fails.
      * right. split; [done|]. split; [done|]. exists out.
        destruct (JsString.includes "git version" (stdout out)) eqn:Hm.
        -- destruct w as [n r tr].
           destruct (creatApp_reaches_try h name templateName templateUrl n r tr out
                       Hv Hn Hp Hm) as [r' ->].
           eauto.
        -- rewrite (creatApp_no_marker h name templateName templateUrl w out
                      Hv Hn Hp Hm).
           eauto.
  - left. split; [done|].
    rewrite (creatApp_invalid h name templateName templateUrl w Hv).
    eexists. split; [reflexivity|].
    unfold console_only. rewrite forallb_app, violation_report_console.
    by destruct node_warning_quiet with (h := h) as (_ & _ & ->).
Qed.

(** X1.  The calls of [process.exit] in [creatApp]: it gets to one
    exactly when the name is not valid, the call is [process.exit(1)],
    and the project directory and the history are then as they were.
    (How the process ends otherwise, after a rejection nobody handles or
    with a child that cannot be started, is not what is stated here.) *)
Theorem creatApp_calls_exit_only_on_invalid_name (w : world) :
  let o := creatApp h name templateName templateUrl w in
  ((∃ code w', o = Exited code w') ↔ name_valid h name = false) ∧
  (∀ code w', o = Exited code w' →
     code = 1%Z ∧ target w' = target w ∧ history w' = history w).
Proof.
  intros o.
  destruct (creatApp_ends w) as
    [(Hv & tr & Ho & _) | [(Hv & _ & e & Ho) | [(Hv & _ & e & _ & Ho) |
     (Hv & _ & out & w1 & _ & Ho)]]];
    fold o in Ho; rewrite Ho, Hv.
  - split; [split; eauto|]. by intros code w' [= <- <-].
  - split; [split; [by intros (? & ? & [=]) | done] | by intros ? ? [=]].
  - split; [split; [by intros (? & ? & [=]) | done] | by intros ? ? [=]].
  - split; [split; [by intros (? & ? & [=]) | done] | by intros ? ? [=]].
Qed.

(** X2.  The version probe is outside the [try] statement: when the
    name is valid, the project directory could be made and the exec of
    [git --version] is rejected, the promise of [creatApp] is rejected
    with that same error.  Up to there the directory was made but not
    emptied, nothing was printed on the error output, and no command
    was run in a working directory, nor the installer. *)
Theorem probe_failure_is_not_caught (w : world) (e : jsval) :
  name_valid h name = true →
  target w ≠ RegularFile →
  run_step h GitVersion None = inl e →
  let before := node_warning h ++ probe_events h name in
  creatApp h name templateName templateUrl w =
  Thrown e (World (ensured (target w)) (history w) (trace w ++ before)) ∧
  (∀ args, ¬ In (ConsoleError args) before) ∧
  ¬ In (EmptyDirSync name) before ∧
  existsb is_work before = false ∧
  existsb is_spawn before = false.
Proof.
  intros Hv Hn Hp before. split; [by apply creatApp_probe_fails|].
  subst before. unfold node_warning, probe_events.
  destruct (semver_satisfies h (process_version h) ">=10"); cbn [negb app].
  - repeat split; try reflexivity; intros; cbn [In];
      intros Hin; repeat (destruct Hin as [Hin|Hin]; [discriminate Hin|]);
      exact Hin.
  - repeat split; try reflexivity; intros; cbn [In];
      intros Hin; repeat (destruct Hin as [Hin|Hin]; [discriminate Hin|]);
      exact Hin.
Qed.

(** X3.  A version of Node that [semver] does not accept changes one
    thing: the warning is printed first.  The run is the run on the same
    host with an accepted version, started after that line. *)
Theorem unsupported_node_only_warns (w : world) :
  node_warning (supported h) = [] ∧
  creatApp h name templateName templateUrl w =
  creatApp (supported h) name templateName templateUrl
    (World (target w) (history w) (trace w ++ node_warning h)).
Proof.
  split; [reflexivity|]. destruct w as [n r tr].
  unfold creatApp, node_warning.
  destruct (semver_satisfies h (process_version h) ">=10");
    cbn [negb when semver_satisfies supported target history trace].
  - rewrite app_nil_r. reflexivity.
  - reflexivity.
Qed.

End Outcomes.

(** A host without git: the shell's error comes out of [creatApp] as it
    is, and the project directory stays behind, made and empty. *)
Lemma probe_failure_is_not_caught_witness :
  let h := Sample.machine
             (Sample.steps_ok (inl (VError "/bin/sh: git: command not found")))
             (inr (Stats true)) 0 "react-starter" Sample.no_answer in
  creatApp h "my-app" (VString "react-starter") (VString Sample.react_starter)
    (World Absent None []) =
  Thrown (VError "/bin/sh: git: command not found")
    (World (Directory ∅) None
       [ EnsureDirSync "my-app";
         ConsoleLog [];
         ConsoleLog [VString "Creating a new React app in /home/dev/my-app."];
         Exec "git --version" None ]).
Proof.
  intros h.
  apply (probe_failure_is_not_caught h "my-app" (VString "react-starter")
           (VString Sample.react_starter) (World Absent None [])
           (VError "/bin/sh: git: command not found"));
    [reflexivity | discriminate | reflexivity].
Defined.

Section Installing.
Import Observe.
Context (h : host) (name : string) (templateName templateUrl : jsval).

(** When nothing throws before it, the [try] statement ends with the
    installer and what the handler prints of its failure. *)
Lemma try_events_install :
  try_failure h name templateName templateUrl = None →
  ∃ before,
    try_events h name templateName templateUrl =
    before ++ install_events h name templateName ++
    install_report h name templateName.
Proof.
  unfold try_failure, try_events.
  destruct (run_step h (GitClone _) _) as [e|out]; [done|].
  destruct (fs_stat h _) as [e|st]; [done|].
  destruct (isDirectory st).
  - intros ->. exists (cloned_events h name templateName templateUrl ++
                        [reset_event name templateName]).
    by rewrite <- app_assoc.
  - intros _. by exists (cloned_events h name templateName templateUrl).
Qed.

(** X4.  A failure of the installer is swallowed too: when the clone,
    the stat and the history reset go through and npm closes with a
    code other than 0, the promise still resolves, and all that tells
    the failure is the last line printed, the rejection object with the
    command line.  With code 0 the last line is the one printed when the
    installer was started. *)
Theorem install_failure_is_swallowed (n : node) (r : option (list string)) :
  reaches_try h name n = true →
  try_failure h name templateName templateUrl = None →
  let o := creatApp h name templateName templateUrl (World n r []) in
  let code := spawn_close h "npm" ["install"; "--save"; "--loglevel"; "error"]
                ("./" +:+ name +:+ "/" +:+ to_string templateName) in
  resolved o = true ∧
  installer_invoked (trace (final o)) = true ∧
  (code ≠ 0%Z →
   last (trace (final o)) =
   Some (ConsoleError [VObject [("command", "npm install --save --loglevel error")]])) ∧
  (code = 0%Z →
   last (trace (final o)) =
   Some (ConsoleLog [VString (chalk h Green "Install dependencies....")])).
Proof.
  intros Hr Hf o code.
  destruct (creatApp_goes_through h name templateName templateUrl n r Hr)
    as (r' & pre & Ho & _ & _).
  destruct (try_events_install Hf) as [before Hev].
  subst o. rewrite Ho, Hev. cbn [final trace resolved].
  split; [done|]. split.
  - unfold installer_invoked. rewrite !existsb_app.
    cbn [install_events existsb is_spawn orb]. by rewrite !orb_true_r.
  - unfold install_report, install_args, template_directory. fold code.
    split; intros Hc.
    + destruct (Z.eqb_spec code 0) as [Hz|_]; [done|].
      by rewrite !last_app.
    + rewrite Hc. cbn [Z.eqb]. rewrite app_nil_r. by rewrite !last_app.
Qed.

End Installing.

(** On a host whose npm closes with code 1. *)
Lemma install_failure_is_swallowed_witness :
  last (trace (final (creatApp Sample.install_fails "my-app" (VString "react-starter")
                        (VString Sample.react_starter) (World Absent None [])))) =
  Some (ConsoleError [VObject [("command", "npm install --save --loglevel error")]]).
Proof.
  apply (install_failure_is_swallowed Sample.install_fails "my-app"
           (VString "react-starter") (VString Sample.react_starter) Absent None);
    [reflexivity | reflexivity | discriminate].
Defined.


Section Confinement.
Context (h : host) (name : string) (templateName templateUrl : jsval).

Lemma console_built_from_names (tr : list event) :
  forallb Observe.is_console tr = true → Forall (built_from_names h name templateName) tr.
Proof.
  induction tr as [|e tr IH]; [constructor|]. cbn. rewrite andb_true_iff.
  intros [He Htr]. constructor; [|by apply IH]. by destruct e.
Qed.

Lemma try_events_built_from_names :
  Forall (built_from_names h name templateName)
    (try_events h name templateName templateUrl).
Proof.
  unfold try_events, cloned_events, reset_event, install_events, install_report,
    clone_directory, template_directory, template_path.
  destruct (run_step h (GitClone _) _) as [e|out].
  - repeat constructor.
  - destruct (fs_stat h _) as [e|st]; [repeat constructor|].
    destruct (isDirectory st).
    + destruct (first_failure h _ _); [repeat constructor; by right|].
      destruct (_ =? _)%Z; repeat constructor; by right.
    + destruct (_ =? _)%Z; repeat constructor.
Qed.

(** X5.  The paths [creatApp] hands to the file system and to child
    processes are built from the project name and the template name
    alone, in every run: [ensureDirSync] and [emptyDirSync] get [name]
    as given; a command with a working directory gets [./name] or
    [./name/templateName]; npm gets [./name/templateName]; [stat] gets
    [process.cwd()/name/templateName]; the only command without a
    working directory is [git --version]; and [creatApp] never prompts.
    (These are the strings handed over; where they lead is up to the
    names.) *)
Theorem creatApp_paths_are_built_from_the_names (n : node)
  (r : option (list string)) :
  Forall (built_from_names h name templateName)
    (trace (final (creatApp h name templateName templateUrl (World n r [])))).
Proof.
  assert (Hwarn : Forall (built_from_names h name templateName) (node_warning h)).
  { apply console_built_from_names. by destruct node_warning_quiet with (h := h) as (_ & _ & ->). }
  assert (Hprobe : Forall (built_from_names h name templateName) (probe_events h name)).
  { unfold probe_events. repeat constructor. }
  assert (Herr : ∀ out, Forall (built_from_names h name templateName) (stderr_warning out)).
  { intros out. unfold stderr_warning. destruct (truthy _); repeat constructor. }
  destruct (creatApp_ends h name templateName templateUrl (World n r [])) as
    [(Hv & tr & Ho & Hc) | [(Hv & Hn & e & Ho) | [(Hv & Hn & e & Hp & Ho) |
     (Hv & Hn & out & w1 & Hp & _)]]].
  - rewrite Ho. cbn [final trace app]. by apply console_built_from_names.
  - rewrite Ho. cbn [final trace app]. apply Forall_app. split; [done|].
    repeat constructor.
  - rewrite Ho. cbn [final trace app]. by apply Forall_app.
  - cbn [target] in Hn.
    destruct (JsString.includes "git version" (stdout out)) eqn:Hm.
    + destruct (creatApp_reaches_try h name templateName templateUrl n r [] out
                  Hv Hn Hp Hm) as [r' ->].
      cbn [final trace app]. rewrite !Forall_app.
      split; [done|]. split; [done|]. split; [done|]. split.
      * unfold clone_preamble. repeat constructor.
      * apply try_events_built_from_names.
    + rewrite (creatApp_no_marker h name templateName templateUrl (World n r []) out
                 Hv Hn Hp Hm).
      cbn [final trace app]. rewrite !Forall_app. auto.
Qed.

End Confinement.

Section Catalogs.
Import Observe.

(** What [Object.prototype] holds is never a string. *)
Lemma inherited_is_not_a_string (key url : string) :
  assoc key Object_prototype ≠ Some (VString url).
Proof.
  unfold Object_prototype, assoc.
  repeat (destruct (String.eqb key _); [discriminate|]). discriminate.
Qed.

Lemma flag_lookup (value : string) :
  (∃ url, get_property FlagCli.templeUrls value = VString url) ↔
  value = "react-starter".
Proof.
  unfold get_property, FlagCli.templeUrls. split.
  - intros [url Hg].
    destruct (_ !! value) as [v|] eqn:Hk.
    + apply lookup_singleton_Some in Hk as [<- _]. reflexivity.
    + destruct (assoc value Object_prototype) as [v|] eqn:Ha; [|discriminate Hg].
      cbn in Hg. subst v. by apply inherited_is_not_a_string in Ha.
  - intros ->. eexists. reflexivity.
Qed.

(** X6.  The catalog of the flag-based entry point has the one template
    [react-starter]: it is the only value of [--template] for which the
    workflow is given a location that is a string.  For every other
    value (such as [micro-starter], the one the option's help text
    names) the workflow is entered all the same, with a location that
    is no string. *)
Theorem flag_catalog_has_one_template (h : host) (name value : string) (w : world) :
  value ≠ "react-starter" →
  ∃ location,
    FlagCli.init h (Argv (Some name) (Some value)) w =
    creatApp h name (VString value) location w ∧
    (∀ url, location ≠ VString url) ∧
    ∀ other, (∃ url, get_property FlagCli.templeUrls other = VString url) ↔
             other = "react-starter".
Proof.
  intros Hne. exists (get_property FlagCli.templeUrls value).
  split; [reflexivity|]. split; [|exact flag_lookup].
  intros url Hg. apply Hne. apply flag_lookup. by exists url.
Qed.

(** [--template micro-starter] gives the workflow no location. *)
Lemma flag_catalog_has_one_template_witness :
  ∃ location,
    FlagCli.init Sample.happy (Argv (Some "my-app") (Some "micro-starter"))
      (World Absent None []) =
    creatApp Sample.happy "my-app" (VString "micro-starter") location
      (World Absent None []) ∧
    ∀ url, location ≠ VString url.
Proof.
  destruct (flag_catalog_has_one_template Sample.happy "my-app" "micro-starter"
              (World Absent None [])) as (location & Hinit & Hloc & _).
  - discriminate.
  - exists location. split; [exact Hinit | exact Hloc].
Defined.

Lemma interactive_lookup (key url : string) :
  InteractiveCli.templateUrls !! key = Some url ↔
  (key = "react-starter" ∧ url = "https://github.com/webpack/react-starter.git") ∨
  (key = "react-material-admin-template" ∧
   url = "https://github.com/rafaelhz/react-material-admin-template.git") ∨
  (key = "react-frame-application" ∧
   url = "https://github.com/zwlzwt/react-frame-application.git").
Proof.
  unfold InteractiveCli.templateUrls.
  rewrite !lookup_insert_Some, lookup_singleton_Some. split.
  - intros [[<- <-] | [_ [[<- <-] | [_ [<- <-]]]]]; auto.
  - intros [[-> ->] | [[-> ->] | [-> ->]]]; [by left | right | right].
    + split; [done|]. by left.
    + split; [done|]. right. split; [done|]. done.
Qed.

(** X7.  The menu and the catalog of the interactive entry point agree:
    every choice of the menu but [custom] is a key of the catalog with a
    location that is not empty, every key of the catalog is a choice of
    the menu, and [custom] is no key of the catalog. *)
Theorem menu_matches_catalog :
  (∀ c, In c Menu.choices →
        Menu.value c = "custom" ∨
        ∃ url, InteractiveCli.templateUrls !! Menu.value c = Some url ∧
               url ≠ EmptyString) ∧
  (∀ key url, InteractiveCli.templateUrls !! key = Some url →
              In key (map Menu.value Menu.choices)) ∧
  InteractiveCli.templateUrls !! "custom" = None.
Proof.
  split; [|split; [|reflexivity]].
  - intros c [<- | [<- | [<- | [<- | []]]]]; cbn [Menu.value]; auto;
      right; eexists; (split; [reflexivity | discriminate]).
  - intros key url Hk. apply interactive_lookup in Hk.
    destruct Hk as [[-> _] | [[-> _] | [-> _]]]; cbn; auto.
Qed.

(** What [init] does once a template of the catalog is chosen. *)
Lemma init_not_custom (h : host) (name : string) (flag : option string) (w : world) :
  select_answer h ≠ "custom" →
  InteractiveCli.init h (Argv (Some name) flag) w =
  creatApp h name (VString (select_answer h))
    (get_property InteractiveCli.templateUrls (select_answer h))
    (World (target w) (history w)
       (trace w ++ [Prompt "Which template you want choice?"])).
Proof.
  intros Hne. destruct w as [n r tr].
  unfold InteractiveCli.init, InteractiveCli.qa, InteractiveCli.select.
  entry_steps. rewrite (strict_eq_strings _ _ Hne).
  entry_steps. rewrite (strict_eq_strings _ _ Hne). reflexivity.
Qed.

(** X8.  In the interactive flow, for every answer the menu offers, the
    workflow is never entered without a location: either the process
    exits with status 0 (the custom template with a blank answer), the
    project directory untouched, or [creatApp] is entered with a
    template name and a location that are both strings and not empty. *)
Theorem interactive_location_is_never_missing (h : host) (name : string)
  (flag : option string) (w : world) :
  In (select_answer h) (map Menu.value Menu.choices) →
  let o := InteractiveCli.init h (Argv (Some name) flag) w in
  (∃ w', o = Exited 0 w' ∧ target w' = target w ∧ history w' = history w) ∨
  (∃ templateName templateUrl w',
     o = creatApp h name (VString templateName) (VString templateUrl) w' ∧
     templateName ≠ EmptyString ∧ templateUrl ≠ EmptyString ∧
     target w' = target w ∧ history w' = history w).
Proof.
  intros Hsel o. subst o. cbn [map Menu.choices Menu.value] in Hsel.
  assert (Hcat : ∀ key url, select_answer h = key → key ≠ "custom" →
                   key ≠ EmptyString → url ≠ EmptyString →
                   get_property InteractiveCli.templateUrls key = VString url →
                   ∃ templateName templateUrl w',
                     InteractiveCli.init h (Argv (Some name) flag) w =
                     creatApp h name (VString templateName) (VString templateUrl) w' ∧
                     templateName ≠ EmptyString ∧ templateUrl ≠ EmptyString ∧
                     target w' = target w ∧ history w' = history w).
  { intros key url Hk Hc Hke Hu Hg.
    rewrite init_not_custom by congruence. rewrite Hk, Hg.
    do 3 eexists. split; [reflexivity|]. by cbn. }
  destruct Hsel as [Hs | [Hs | [Hs | [Hs | []]]]]; symmetry in Hs.
  - right.
    apply (Hcat "react-starter" "https://github.com/webpack/react-starter.git" Hs);
      [discriminate | discriminate | discriminate | reflexivity].
  - right.
    apply (Hcat "react-material-admin-template"
             "https://github.com/rafaelhz/react-material-admin-template.git" Hs);
      [discriminate | discriminate | discriminate | reflexivity].
  - right.
    apply (Hcat "react-frame-application"
             "https://github.com/zwlzwt/react-frame-application.git" Hs);
      [discriminate | discriminate | discriminate | reflexivity].
  - rewrite (init_custom h name flag w Hs). cbv zeta.
    destruct (truthy (VString (input_answer h "templateName"))) eqn:Hn;
      destruct (truthy (VString (input_answer h "templateUrl"))) eqn:Hu;
      cbn [negb orb].
    + right. apply truthy_string in Hn, Hu. do 3 eexists.
      split; [reflexivity|]. by cbn.
    + left. eexists. split; [reflexivity|]. by cbn.
    + left. eexists. split; [reflexivity|]. by cbn.
    + left. eexists. split; [reflexivity|]. by cbn.
Qed.

(** The custom template [foo] with both answers typed. *)
Lemma interactive_location_is_never_missing_witness :
  let h := Sample.custom "foo" "https://example.com/foo.git" in
  let w := World Absent None [] in
  let o := InteractiveCli.init h (Argv (Some "my-app") None) w in
  (∃ w', o = Exited 0 w' ∧ target w' = target w ∧ history w' = history w) ∨
  (∃ templateName templateUrl w',
     o = creatApp h "my-app" (VString templateName) (VString templateUrl) w' ∧
     templateName ≠ EmptyString ∧ templateUrl ≠ EmptyString ∧
     target w' = target w ∧ history w' = history w).
Proof.
  apply (interactive_location_is_never_missing
           (Sample.custom "foo" "https://example.com/foo.git") "my-app" None
           (World Absent None [])).
  cbn. auto.
Defined.

End Catalogs.

Section ExitStatuses.
Context (h : host).

Lemma creatApp_exit_code (name : string) (templateName templateUrl : jsval)
  (w : world) :
  (name_valid h name = false →
   ∃ w', creatApp h name templateName templateUrl w = Exited 1 w') ∧
  (∀ code w', creatApp h name templateName templateUrl w = Exited code w' →
              code = 1%Z ∧ name_valid h name = false).
Proof.
  destruct (creatApp_ends h name templateName templateUrl w) as
    [(Hv & tr & Ho & _) | [(Hv & _ & e & Ho) | [(Hv & _ & e & _ & Ho) |
     (Hv & _ & out & w1 & _ & Ho)]]];
    rewrite Ho, Hv.
  - split; [eauto|]. by intros code w' [= <- _].
  - split; [done|]. by intros ? ? [=].
  - split; [done|]. by intros ? ? [=].
  - split; [done|]. by intros ? ? [=].
Qed.

Lemma flag_init_usage (flag : option string) (w : world) :
  FlagCli.init h (Argv None flag) w =
  Exited 0 (World (target w) (history w)
              (trace w ++ usage_events h "Ceridian-project")).
Proof.
  destruct w as [n r tr]. unfold FlagCli.init, usage_events.
  entry_steps. reflexivity.
Qed.

Lemma interactive_init_usage (flag : option string) (w : world) :
  InteractiveCli.init h (Argv None flag) w =
  Exited 0 (World (target w) (history w)
              (trace w ++ usage_events h "Custom-react-project")).
Proof.
  destruct w as [n r tr]. unfold InteractiveCli.init, usage_events.
  entry_steps. reflexivity.
Qed.

(** X9.  The calls of [process.exit] in the flag-based entry point,
    once [commander] has parsed the command line: the script gets to
    [process.exit()] (status 0) exactly when no project directory is
    given, to [process.exit(1)] exactly when one is given whose name is
    not valid, and to no other call of [process.exit].  (How the process
    ends after a rejection nobody handles is not what is stated here.) *)
Theorem flag_process_exit_calls (args : argv) (w : world) :
  let o := FlagCli.init h args w in
  ((∃ w', o = Exited 0 w') ↔ project_directory args = None) ∧
  ((∃ w', o = Exited 1 w') ↔
   ∃ name, project_directory args = Some name ∧ name_valid h name = false) ∧
  (∀ code w', o = Exited code w' → code = 0%Z ∨ code = 1%Z).
Proof.
  intros o. subst o. destruct args as [[name|] flag]; cbn [project_directory].
  - change (FlagCli.init h (Argv (Some name) flag) w) with
      (creatApp h name (VString (default "react-starter" flag))
         (get_property FlagCli.templeUrls (default "react-starter" flag)) w).
    destruct (creatApp_exit_code name (VString (default "react-starter" flag))
                (get_property FlagCli.templeUrls (default "react-starter" flag)) w)
      as [Hexit Hcode].
    split; [|split].
    + split; [|done]. intros [w' Ho]. by destruct (Hcode _ _ Ho).
    + split.
      * intros [w' Ho]. destruct (Hcode _ _ Ho) as [_ Hv]. eauto.
      * intros (name' & [= <-] & Hv). auto.
    + intros code w' Ho. destruct (Hcode _ _ Ho) as [-> _]. by right.
  - rewrite flag_init_usage. split; [|split].
    + split; eauto.
    + split; [by intros [w' [=]] | by intros (? & [=] & _)].
    + intros code w' [= <- _]. by left.
Qed.

(** X10.  The calls of [process.exit] in the interactive entry point,
    once [commander] has parsed the command line and the prompts are
    answered: the script gets to
    [process.exit()] (status 0) exactly when no project directory is
    given or the custom template is chosen with an empty name or
    location; to [process.exit(1)] exactly when a project directory is
    given, the answers do not end the process, and the name is not
    valid; and to no other call of [process.exit].  (How the process
    ends when a child cannot be started is not what is stated here.) *)
Theorem interactive_process_exit_calls (args : argv) (w : world) :
  let o := InteractiveCli.init h args w in
  let blank_custom :=
    select_answer h = "custom" ∧
    (input_answer h "templateName" = EmptyString ∨
     input_answer h "templateUrl" = EmptyString) in
  ((∃ w', o = Exited 0 w') ↔ project_directory args = None ∨ blank_custom) ∧
  ((∃ w', o = Exited 1 w') ↔
   ∃ name, project_directory args = Some name ∧ ¬ blank_custom ∧
           name_valid h name = false) ∧
  (∀ code w', o = Exited code w' → code = 0%Z ∨ code = 1%Z).
Proof.
  intros o blank_custom. subst o.
  destruct args as [[name|] flag]; cbn [project_directory].
  - assert (Hrun : ∀ templateName templateUrl w1,
              ¬ blank_custom →
              InteractiveCli.init h (Argv (Some name) flag) w =
              creatApp h name templateName templateUrl w1 →
              ((∃ w', InteractiveCli.init h (Argv (Some name) flag) w = Exited 0 w') ↔
               Some name = None ∨ blank_custom) ∧
              ((∃ w', InteractiveCli.init h (Argv (Some name) flag) w = Exited 1 w') ↔
               ∃ name', Some name = Some name' ∧ ¬ blank_custom ∧
                        name_valid h name' = false) ∧
              (∀ code w', InteractiveCli.init h (Argv (Some name) flag) w =
                          Exited code w' → code = 0%Z ∨ code = 1%Z)).
    { intros templateName templateUrl w1 Hnb ->.
      destruct (creatApp_exit_code name templateName templateUrl w1)
        as [Hexit Hcode].
      split; [|split].
      - split; [|by intros [[=]|?]]. intros [w' Ho]. by destruct (Hcode _ _ Ho).
      - split.
        + intros [w' Ho]. destruct (Hcode _ _ Ho) as [_ Hv]. eauto.
        + intros (name' & [= <-] & _ & Hv). auto.
      - intros code w' Ho. destruct (Hcode _ _ Ho) as [-> _]. by right. }
    destruct (decide (select_answer h = "custom")) as [Hs|Hs].
    + pose proof (init_custom h name flag w Hs) as Hi. cbv zeta in Hi.
      destruct (truthy (VString (input_answer h "templateName"))) eqn:Hn;
        destruct (truthy (VString (input_answer h "templateUrl"))) eqn:Hu;
        cbn [negb orb] in Hi.
      * apply truthy_string in Hn, Hu.
        eapply Hrun; [|exact Hi]. intros [_ [Hb|Hb]]; done.
      * assert (Hb : blank_custom).
        { split; [done|]. right. by destruct (input_answer h "templateUrl"). }
        rewrite Hi. split; [|split].
        -- split; eauto.
        -- split; [by intros [w' [=]] | by intros (? & _ & Hnb & _)].
        -- intros code w' [= <- _]. by left.
      * assert (Hb : blank_custom).
        { split; [done|]. left. by destruct (input_answer h "templateName"). }
        rewrite Hi. split; [|split].
        -- split; eauto.
        -- split; [by intros [w' [=]] | by intros (? & _ & Hnb & _)].
        -- intros code w' [= <- _]. by left.
      * assert (Hb : blank_custom).
        { split; [done|]. left. by destruct (input_answer h "templateName"). }
        rewrite Hi. split; [|split].
        -- split; eauto.
        -- split; [by intros [w' [=]] | by intros (? & _ & Hnb & _)].
        -- intros code w' [= <- _]. by left.
    + eapply Hrun; [|exact (init_not_custom h name flag w Hs)].
      by intros [Hc _].
  - rewrite interactive_init_usage. split; [|split].
    + split; eauto.
    + split; [by intros [w' [=]] | by intros (? & [=] & _)].
    + intros code w' [= <- _]. by left.
Qed.

End ExitStatuses.

Section InstallCommand.
Import JsString.

(** X11.  What [install] reports is what it ran.  When its promise is
    rejected, either [spawn] itself threw and the rejection is what it
    threw, nothing printed; or the process closed with a code other
    than 0, and then the [command] of the rejection is the command and
    the arguments it spawned, in their order, joined by single spaces,
    that process was spawned in [./root], and the dependencies it was
    given come last on that command line, in the order given. *)
Theorem install_reports_what_it_spawned (h : host)
  (child : string → list string → string → Spawning.spawned)
  (root : string) (dependencies : list string) (w : world) (e : jsval)
  (w' : world) :
  Spawning.install h child root dependencies w = Thrown e w' →
  ∃ command args,
    args = ["install"; "--save"; "--loglevel"; "error"] ++ dependencies ∧
    ((child command args ("./" +:+ root) = Spawning.SpawnThrows e ∧
      trace w' = trace w ++ [Spawn command args ("./" +:+ root)]) ∨
     ((∃ code, child command args ("./" +:+ root) = Spawning.Closes code ∧
               code ≠ Some 0%Z) ∧
      trace w' = trace w ++
        [ Spawn command args ("./" +:+ root);
          ConsoleLog [];
          ConsoleLog [VString (chalk h Green "Install dependencies....")] ] ∧
      e = VObject [("command", join " " (command :: args))] ∧
      (dependencies ≠ [] →
       e = VObject [("command", "npm install --save --loglevel error" +:+ " " +:+
                                join " " dependencies)]))).
Proof.
  destruct w as [n r tr]. unfold Spawning.install. entry_steps.
  destruct (child "npm" _ _) as [e0|e0|code] eqn:Hc; entry_steps; unfold throw.
  - intros [= <- <-].
    exists "npm", (["install"; "--save"; "--loglevel"; "error"] ++ dependencies).
    split; [reflexivity|]. by left.
  - discriminate.
  - intros Hrun.
    assert (Hne : code ≠ Some 0%Z) by (intros ->; discriminate Hrun).
    assert (Hrej : Thrown (A := unit)
                     (VObject [("command", "npm" +:+ " " +:+
                        join " " (["install"; "--save"; "--loglevel"; "error"] ++
                                  dependencies))])
                     (World n r (tr ++
                        [ Spawn "npm"
                            (["install"; "--save"; "--loglevel"; "error"] ++ dependencies)
                            ("./" +:+ root);
                          ConsoleLog [];
                          ConsoleLog [VString (chalk h Green "Install dependencies....")] ])) =
                   Thrown e w').
    { by destruct code as [[|p|p]|]. }
    injection Hrej as <- <-.
    exists "npm", (["install"; "--save"; "--loglevel"; "error"] ++ dependencies).
    split; [reflexivity|]. right. split; [by exists code|].
    split; [reflexivity|]. split; [reflexivity|].
    intros Hd. destruct dependencies; [done | reflexivity].
Qed.

(** Two dependencies, and npm closes with code 1. *)
Lemma install_reports_what_it_spawned_witness :
  let child := λ _ _ _, Spawning.Closes (Some 1%Z) in
  let e := VObject [("command", "npm install --save --loglevel error react redux")] in
  let w' := World Absent None
              [ Spawn "npm" ["install"; "--save"; "--loglevel"; "error"; "react"; "redux"]
                  "./my-app";
                ConsoleLog [];
                ConsoleLog [VString "Install dependencies...."] ] in
  Spawning.install Sample.happy child "my-app" ["react"; "redux"]
    (World Absent None []) = Thrown e w' ∧
  ∃ command args,
    args = ["install"; "--save"; "--loglevel"; "error"] ++ ["react"; "redux"] ∧
    e = VObject [("command", join " " (command :: args))].
Proof.
  intros child e w'. split; [reflexivity|].
  destruct (install_reports_what_it_spawned Sample.happy child "my-app"
              ["react"; "redux"] (World Absent None []) e w' eq_refl)
    as (command & args & Hargs & [[Hthrows _] | (_ & _ & He & _)]).
  - subst args. discriminate Hthrows.
  - exists command, args. split; [exact Hargs | exact He].
Defined.

End InstallCommand.

(** ** [__awaiter] *)

Section Awaiting.
Import Awaiter.

Lemma last_after (A : Type) (x y : A) (l : list A) :
  x ≠ y → (last (x :: l) = Some y ↔ last l = Some y).
Proof.
  intros Hxy. rewrite last_cons. destruct (last l) as [z|]; [done|].
  split; [by intros [= ->] | done].
Qed.

(** X12.  An [async] function with no [yield] in a [try] block: when a
    promise it awaits is rejected, the promise of the function is
    rejected with the same reason, that promise is the last thing it
    awaited, and it does not get to its [return]. *)
Theorem awaiter_rejects_with_the_first_rejection (thisArg : jsval)
  (_arguments : option (list jsval))
  (generator : jsval → list jsval → Awaiter.generator) (reason : jsval) :
  let start := gen_next (generator thisArg (default [] _arguments)) VUndefined in
  uncaught start →
  In (Promise (Rejected reason)) (awaited start) →
  __awaiter thisArg _arguments generator = Rejected reason ∧
  last (awaited start) = Some (Promise (Rejected reason)) ∧
  returned start = None.
Proof.
  intros start Hun. unfold __awaiter. fold start.
  induction Hun as [value|e|value next throw Hthrow Hnext IH]; [done|done|].
  cbn [awaited step returned]. intros [Hv | Hin].
  - subst value. cbn [adopt]. rewrite Hthrow. by cbn.
  - destruct (adopt value) as [|v|e] eqn:Ha.
    + done.
    + destruct (IH v Hin) as (Hs & Hl & Hr). split; [done|]. split; [|done].
      apply last_after; [|done].
      intros ->. discriminate Ha.
    + rewrite Hthrow in Hin. done.
Qed.

(** The generator of [async () => { await a; await b; return 1 }], with
    [b] rejected. *)
Lemma awaiter_rejects_with_the_first_rejection_witness :
  let body (this : jsval) (args : list jsval) :=
    Generator
      (λ _, Yield (Plain (VString "a"))
              (λ _, Yield (Promise (Rejected (VError "b failed")))
                      (λ _, Return (Plain (VString "1")))
                      Raise)
              Raise)
      Raise in
  __awaiter VUndefined None body = Rejected (VError "b failed").
Proof.
  intros body.
  apply (awaiter_rejects_with_the_first_rejection VUndefined None body
           (VError "b failed")).
  - cbn. repeat (constructor; intros).
  - cbn. right. left. reflexivity.
Defined.

(** X13.  For a generator whose driving comes to an end after finitely
    many [yield]s (the generators of [iterator_result]; one that yields
    for ever keeps the promise pending too, and is not among them): the
    promise [__awaiter] returns stays pending in two cases only, the
    last promise awaited never settles, or the generator returned a
    promise that never settles. *)
Theorem awaiter_pending_only_on_pending (thisArg : jsval)
  (_arguments : option (list jsval))
  (generator : jsval → list jsval → Awaiter.generator) :
  let start := gen_next (generator thisArg (default [] _arguments)) VUndefined in
  __awaiter thisArg _arguments generator = Pending ↔
  last (awaited start) = Some (Promise Pending) ∨
  returned start = Some (Promise Pending).
Proof.
  intros start. unfold __awaiter. fold start.
  induction start as [value next IHnext throw IHthrow|value|e].
  - cbn [step awaited returned].
    destruct (adopt value) as [|v|reason] eqn:Ha.
    + destruct value as [v|state]; [discriminate Ha|]. cbn in Ha. subst state.
      split; [by left | done].
    + rewrite IHnext, last_after; [done|]. intros ->. discriminate Ha.
    + rewrite IHthrow, last_after; [done|]. intros ->. discriminate Ha.
  - cbn. destruct value as [v|[|v|reason]]; cbn.
    + split; [done | by intros [[=]|[=]]].
    + split; [by right | done].
    + split; [done | by intros [[=]|[=]]].
    + split; [done | by intros [[=]|[=]]].
  - cbn. split; [done | by intros [[=]|[=]]].
Qed.

End Awaiting.
